(** * Resume Shortlister: a shallow embedding of [app.py] and [models.py]

    The program is a linear pipeline: extract the text of each uploaded
    resume ([parse_resume]), ask a language model to score it against a
    job description ([analyze_with_gemini]), validate the answer as a
    [CandidateAnalysis], and render the answers sorted by score.

    Python values are modelled as they are at run time: a [str] is a
    sequence of Unicode code points, a [dict] is an insertion-ordered
    association list with unique keys, an exception is a class and its
    [str()] text.  Effects (Streamlit widgets, the model call, the two
    document libraries) are threaded through an explicit event log. *)

From Stdlib Require Import String Ascii DecimalString.
From Stdlib Require Import List ZArith NArith Bool Lia Permutation Sorted.
Import ListNotations.

Set Warnings "-register-all".

(* ================================================================= *)
(** ** Python strings *)

Module PyStr.

(** A Python [str] is a sequence of code points. *)
Definition codepoint := N.
Definition pystr := list codepoint.

(** The code points of an ASCII literal. *)
Definition lit (s : string) : pystr :=
  map N_of_ascii (list_ascii_of_string s).

(** A literal in which every [^] stands for a double quote. *)
Definition qlit (s : string) : pystr :=
  map (fun c => if N.eqb c 94 then 34%N else c) (lit s).

Definition nl : pystr := [10%N].

Fixpoint str_eqb (a b : pystr) : bool :=
  match a, b with
  | [], [] => true
  | x :: a', y :: b' => N.eqb x y && str_eqb a' b'
  | _, _ => false
  end.

(** [str.isspace] on one code point (CPython's [_PyUnicode_IsWhitespace]). *)
Definition isspace (c : codepoint) : bool :=
  ((9 <=? c) && (c <=? 13) || (28 <=? c) && (c <=? 32)
   || (c =? 133) || (c =? 160) || (c =? 5760)
   || (8192 <=? c) && (c <=? 8202)
   || (c =? 8232) || (c =? 8233) || (c =? 8239) || (c =? 8287)
   || (c =? 12288))%N.

Fixpoint lstrip (s : pystr) : pystr :=
  match s with
  | c :: s' => if isspace c then lstrip s' else s
  | [] => []
  end.

Definition rstrip (s : pystr) : pystr := rev (lstrip (rev s)).

(** [s.strip()] *)
Definition strip (s : pystr) : pystr := rstrip (lstrip s).

(** [s.startswith(prefix)] *)
Fixpoint startswith (s prefix : pystr) {struct prefix} : bool :=
  match prefix, s with
  | [], _ => true
  | p :: prefix', c :: s' => N.eqb c p && startswith s' prefix'
  | _ :: _, [] => false
  end.

(** [s.endswith(suffix)] *)
Definition endswith (s suffix : pystr) : bool :=
  startswith (rev s) (rev suffix).

(** The scan of [str.replace] for a non-empty [old]: left to right,
    non-overlapping.  [skip] counts the characters of the occurrence
    just matched that are still to be dropped. *)
Fixpoint replace_scan (old new : pystr) (skip : nat) (s : pystr) : pystr :=
  match s with
  | [] => []
  | c :: s' =>
      match skip with
      | S k => replace_scan old new k s'
      | O =>
          if startswith s old
          then new ++ replace_scan old new (pred (length old)) s'
          else c :: replace_scan old new O s'
      end
  end.

(** [s.replace(old, new)]; an empty [old] matches between all characters. *)
Definition replace (s old new : pystr) : pystr :=
  match old with
  | [] => new ++ flat_map (fun c => c :: new) s
  | _ :: _ => replace_scan old new O s
  end.

(** [sep.join(parts)] *)
Fixpoint join (sep : pystr) (parts : list pystr) : pystr :=
  match parts with
  | [] => []
  | [x] => x
  | x :: rest => x ++ sep ++ join sep rest
  end.

(** [str(n)] for an [int]. *)
Definition str_of_int (z : Z) : pystr :=
  lit (NilZero.string_of_int (Z.to_int z)).

Definition str_of_nat (n : nat) : pystr := str_of_int (Z.of_nat n).

(** [sub in s] *)
Fixpoint contains (s sub : pystr) : bool :=
  startswith s sub ||
  match s with
  | [] => false
  | _ :: s' => contains s' sub
  end.

(** The number of [c] at the head of [s]. *)
Fixpoint leading (c : codepoint) (s : pystr) : nat :=
  match s with
  | x :: s' => if N.eqb x c then S (leading c s') else O
  | [] => O
  end.

(** [a] is [b] with some characters deleted. *)
Inductive subsequence : pystr -> pystr -> Prop :=
| subsequence_nil : subsequence [] []
| subsequence_drop (x : codepoint) (a b : pystr) :
    subsequence a b -> subsequence a (x :: b)
| subsequence_keep (x : codepoint) (a b : pystr) :
    subsequence a b -> subsequence (x :: a) (x :: b).

(** [sub] stands somewhere in [s]. *)
Definition occurs (sub s : pystr) : Prop :=
  exists before after, s = before ++ sub ++ after.

(** [deletes old s r]: [r] is [s] without the occurrences of [old],
    taken from the left, none overlapping another.  Either [old] does
    not occur in [s], or [s] is split at the first occurrence (no
    occurrence starts within [before]) and the deletion goes on in what
    follows that occurrence. *)
Inductive deletes (old : pystr) : pystr -> pystr -> Prop :=
| deletes_none (s : pystr) : ~ occurs old s -> deletes old s s
| deletes_first (before rest r : pystr) :
    ~ occurs old (before ++ removelast old) ->
    deletes old rest r ->
    deletes old (before ++ old ++ rest) (before ++ r).

(** [t] is [raw] without the white space at its two ends. *)
Definition trimmed (raw t : pystr) : Prop :=
  exists before after,
    raw = before ++ t ++ after
    /\ forallb isspace before = true /\ forallb isspace after = true
    /\ (forall c rest, t = c :: rest -> isspace c = false)
    /\ (forall c front, t = front ++ [c] -> isspace c = false).

End PyStr.
Export PyStr.

(* ================================================================= *)
(** ** Python values and exceptions *)

Module Py.

(** The exception classes the program's handlers tell apart.  An
    exception of a library's own class is recorded under the nearest
    class listed here; [KeyboardInterrupt] stands for the classes that
    derive from [BaseException] only, which [except Exception] lets
    through. *)
Inductive exc_class :=
| JSONDecodeError | TypeError | KeyError
| AttributeError | ValueError | RecursionError
| ValidationError | UnboundLocalError | OtherException
| KeyboardInterrupt.

(** An exception: its class and its [str(e)]. *)
Record exc := mk_exc { exc_type : exc_class; exc_str : pystr }.

(** The outcome of evaluating an expression. *)
Inductive result (A : Type) :=
| Ok (a : A)
| Raise (e : exc).
Arguments Ok {A} a.
Arguments Raise {A} e.

(** [isinstance(e, (json.JSONDecodeError, TypeError, KeyError))] *)
Definition is_format_error (e : exc) : bool :=
  match exc_type e with
  | JSONDecodeError | TypeError | KeyError => true
  | _ => false
  end.

(** [isinstance(e, Exception)] *)
Definition is_Exception (e : exc) : bool :=
  match exc_type e with
  | KeyboardInterrupt => false
  | _ => true
  end.

(** The values [json.loads] produces, and the keyword arguments of a
    constructor call.  A [float] is kept as the literal that denotes
    it; a [dict] keeps its keys in insertion order. *)
Inductive value :=
| VNone
| VBool (b : bool)
| VInt (z : Z)
| VFloat (literal : pystr)
| VStr (s : pystr)
| VList (items : list value)
| VDict (pairs : list (pystr * value)).

Definition dict := list (pystr * value).

(** [d.get(k)], [None] when [k] is absent. *)
Fixpoint dict_get (d : dict) (k : pystr) : option value :=
  match d with
  | [] => None
  | (k', v) :: d' => if str_eqb k' k then Some v else dict_get d' k
  end.

(** [d.get(k, default)] *)
Definition dict_get_default (d : dict) (k : pystr) (default : value) : value :=
  match dict_get d k with
  | Some v => v
  | None => default
  end.

(** [d[k] = v]: an existing key keeps its place. *)
Fixpoint dict_set (d : dict) (k : pystr) (v : value) : dict :=
  match d with
  | [] => [(k, v)]
  | (k', v') :: d' =>
      if str_eqb k' k then (k', v) :: d' else (k', v') :: dict_set d' k v
  end.

(** [type(v).__name__] *)
Definition type_name (v : value) : pystr :=
  match v with
  | VNone => lit "NoneType"
  | VBool _ => lit "bool"
  | VInt _ => lit "int"
  | VFloat _ => lit "float"
  | VStr _ => lit "str"
  | VList _ => lit "list"
  | VDict _ => lit "dict"
  end.

(** The [AttributeError] of [v.get] on a value that has no [get]. *)
Definition no_attribute_get (v : value) : exc :=
  mk_exc AttributeError
    (lit "'" ++ type_name v ++ lit "' object has no attribute 'get'").

End Py.
Export Py.

(* ================================================================= *)
(** ** The libraries the program calls *)

Module Lib.

Definition bytes := list Byte.byte.

(** What pydantic reports about one field. *)
Inductive problem :=
| missing                        (* the keyword argument is absent *)
| wrong_type (v : value)         (* the input is not read at the field's type *)
| greater_than_equal (z : Z)     (* [ge] is violated by [z] *)
| less_than_equal (z : Z).       (* [le] is violated by [z] *)

(** [response.text] is a property: reading it returns the text or raises. *)
Record GenerateContentResponse := { text : result pystr }.

(** The behaviour of the external collaborators.  The embedding fixes
    of them only what every version of the libraries does: a [str]
    formats as itself, and pydantic reads a [str], an [int] and a
    [bool] unchanged at a field of that type. *)
Class Externals := {
  (** [model.generate_content(prompt)], for the [n]-th call of the run *)
  generate_content : nat -> pystr -> result GenerateContentResponse;
  (** [json.loads(s)] *)
  json_loads : pystr -> result value;
  (** [f"{v}"] *)
  py_format : value -> pystr;
  py_format_str : forall s, py_format (VStr s) = s;
  (** pydantic's reading of an input at a [str], [int], [bool] field *)
  coerce_str : value -> option pystr;
  coerce_int : value -> option Z;
  coerce_bool : value -> option bool;
  coerce_str_str : forall s, coerce_str (VStr s) = Some s;
  coerce_int_int : forall z, coerce_int (VInt z) = Some z;
  coerce_bool_bool : forall b, coerce_bool (VBool b) = Some b;
  (** [str(e)] of the [ValidationError] raised for the given keyword
      arguments (the text quotes the input) and field errors *)
  validation_error_str : list (pystr * value) -> list (pystr * problem) -> pystr;
  (** [fitz.open(stream=b, filetype="pdf")]: the pages, each with the
      outcome of its [get_text()] *)
  fitz_open : bytes -> result (list (result pystr));
  (** [docx.Document(io.BytesIO(b))]: the paragraphs, each with the
      outcome of its [text] *)
  docx_Document : bytes -> result (list (result pystr))
}.

(** Consuming a generator: the items in order, up to the first that raises. *)
Fixpoint collect {A : Type} (items : list (result A)) : result (list A) :=
  match items with
  | [] => Ok []
  | Raise e :: _ => Raise e
  | Ok a :: rest =>
      match collect rest with
      | Ok l => Ok (a :: l)
      | Raise e => Raise e
      end
  end.

End Lib.
Export Lib.

(* ================================================================= *)
(** ** models.py *)

Module Models.
Section Models.
Context {ext : Externals}.

Record CandidateAnalysis := {
  candidate_name : pystr;
  score : Z;
  summary : pystr;
  reasoning : pystr;
  is_recommended : bool
}.

(** A required [str] field with no further constraint. *)
Definition validate_str (kwargs : dict) (field : pystr) : problem + pystr :=
  match dict_get kwargs field with
  | None => inl missing
  | Some v =>
      match coerce_str v with
      | Some s => inr s
      | None => inl (wrong_type v)
      end
  end.

(** [score: int = Field(..., ge=0, le=100)] *)
Definition validate_score (kwargs : dict) : problem + Z :=
  match dict_get kwargs (lit "score") with
  | None => inl missing
  | Some v =>
      match coerce_int v with
      | None => inl (wrong_type v)
      | Some z =>
          if (z <? 0)%Z then inl (greater_than_equal z)
          else if (100 <? z)%Z then inl (less_than_equal z)
          else inr z
      end
  end.

(** A required [bool] field. *)
Definition validate_bool (kwargs : dict) (field : pystr) : problem + bool :=
  match dict_get kwargs field with
  | None => inl missing
  | Some v =>
      match coerce_bool v with
      | Some b => inr b
      | None => inl (wrong_type v)
      end
  end.

Definition field_errors {A : Type} (field : pystr) (r : problem + A)
  : list (pystr * problem) :=
  match r with
  | inl p => [(field, p)]
  | inr _ => []
  end.

(** The errors pydantic collects, field by field in the order of the
    declarations. *)
Definition field_problems (kwargs : dict) : list (pystr * problem) :=
  field_errors (lit "candidate_name") (validate_str kwargs (lit "candidate_name"))
  ++ field_errors (lit "score") (validate_score kwargs)
  ++ field_errors (lit "summary") (validate_str kwargs (lit "summary"))
  ++ field_errors (lit "reasoning") (validate_str kwargs (lit "reasoning"))
  ++ field_errors (lit "is_recommended") (validate_bool kwargs (lit "is_recommended")).

(** The constructor call with unpacked keyword arguments: every field
    is validated, keyword arguments that name no field are ignored, and
    the errors of all fields are raised together. *)
Definition CandidateAnalysis_new (kwargs : dict) : result CandidateAnalysis :=
  let cn := validate_str kwargs (lit "candidate_name") in
  let sc := validate_score kwargs in
  let su := validate_str kwargs (lit "summary") in
  let re := validate_str kwargs (lit "reasoning") in
  let ir := validate_bool kwargs (lit "is_recommended") in
  match cn, sc, su, re, ir with
  | inr n, inr z, inr s, inr r, inr b =>
      Ok {| candidate_name := n; score := z; summary := s;
            reasoning := r; is_recommended := b |}
  | _, _, _, _, _ =>
      Raise (mk_exc ValidationError
               (validation_error_str kwargs (field_problems kwargs)))
  end.

(** The constraints the constructor enforces, spelled out: the five
fields are required, each is read at its type, and the score lies
between 0 and 100. *)
Definition field_names : list pystr :=
  [lit "candidate_name"; lit "score"; lit "summary"; lit "reasoning";
   lit "is_recommended"].

Definition text_fields : list pystr :=
  [lit "candidate_name"; lit "summary"; lit "reasoning"].

Inductive violates (kwargs : dict) : Prop :=
| field_missing (f : pystr) :
    In f field_names -> dict_get kwargs f = None -> violates kwargs
| text_mistyped (f : pystr) (v : value) :
    In f text_fields -> dict_get kwargs f = Some v -> coerce_str v = None ->
    violates kwargs
| score_mistyped (v : value) :
    dict_get kwargs (lit "score") = Some v -> coerce_int v = None ->
    violates kwargs
| score_out_of_range (v : value) (z : Z) :
    dict_get kwargs (lit "score") = Some v -> coerce_int v = Some z ->
    (z < 0 \/ 100 < z)%Z -> violates kwargs
| flag_mistyped (v : value) :
    dict_get kwargs (lit "is_recommended") = Some v -> coerce_bool v = None ->
    violates kwargs.

Definition score_in_range (c : CandidateAnalysis) : Prop :=
  (0 <= score c <= 100)%Z.

End Models.
End Models.
Export Models.

(* ================================================================= *)
(** ** app.py *)

Module App.

(** What a run does to the outside world, in the order it happens:
    the Streamlit calls and the calls to the libraries. *)
Inductive event :=
| st_error (msg : pystr)
| st_write (msg : pystr)
| st_spinner (msg : pystr)
| st_progress (value : Z)
| progress_bar_progress (numerator denominator : nat)
| progress_bar_empty
| st_subheader (msg : pystr)
| st_expander (title : pystr) (expanded : bool)
| st_markdown (body : pystr) (unsafe_allow_html : bool)
| st_success (msg : pystr)
| st_warning (msg : pystr)
| genai_generate_content (prompt : pystr)
| fitz_opening (stream : bytes)
| docx_opening (stream : bytes).

Definition log := list event.

(** A computation: it reads the log so far, extends it, and returns a
    value or raises. *)
Definition M (A : Type) : Type := log -> result A * log.

Definition ret {A : Type} (a : A) : M A := fun l => (Ok a, l).

Definition raise {A : Type} (e : exc) : M A := fun l => (Raise e, l).

Definition bind {A B : Type} (m : M A) (k : A -> M B) : M B :=
  fun l =>
    match m l with
    | (Ok a, l') => k a l'
    | (Raise e, l') => (Raise e, l')
    end.

Definition lift {A : Type} (r : result A) : M A := fun l => (r, l).

Definition emit (ev : event) : M unit := fun l => (Ok tt, l ++ [ev]).

Notation "x <- m ;; k" := (bind m (fun x => k))
  (at level 61, m at next level, right associativity).
Notation "m ;; k" := (bind m (fun _ => k))
  (at level 61, right associativity).

(** [try: body / except ... as e: handler e].  What the handler raises
    is not handled again. *)
Definition try_except {A : Type} (body : M A) (handler : exc -> M A) : M A :=
  fun l =>
    match body l with
    | (Ok a, l') => (Ok a, l')
    | (Raise e, l') => handler e l'
    end.

(** A [try] whose first statement binds a local variable that the
    handlers read: the handlers see it unbound when that statement is
    the one that raised. *)
Definition try_binding {L A : Type} (first : M L) (rest : L -> M A)
    (handler : option L -> exc -> M A) : M A :=
  fun l =>
    match first l with
    | (Raise e, l1) => handler None e l1
    | (Ok x, l1) =>
        match rest x l1 with
        | (Ok a, l2) => (Ok a, l2)
        | (Raise e, l2) => handler (Some x) e l2
        end
    end.

(** Truth value of a [str] or a [list]: non-empty. *)
Definition truthy {A : Type} (l : list A) : bool :=
  match l with
  | [] => false
  | _ :: _ => true
  end.

Definition is_generate_content (ev : event) : bool :=
  match ev with
  | genai_generate_content _ => true
  | _ => false
  end.

(** The prompts sent to the model so far. *)
Definition model_calls (l : log) : list event := filter is_generate_content l.

Definition is_extraction (ev : event) : bool :=
  match ev with
  | fitz_opening _ | docx_opening _ => true
  | _ => false
  end.

(** The documents handed to an extraction library so far. *)
Definition extractions (l : log) : list event := filter is_extraction l.

(** [PROMPT_TEMPLATE] up to the [{job_description}] field. *)
Definition PROMPT_TEMPLATE_head : pystr :=
  join nl
    [lit "";
     lit "You are a highly intelligent AI-powered Technical Recruiter. ";
     lit "Your primary goal is to dynamically adapt your expertise to match the specific role described in the provided Job Description. ";
     lit "You must act as a specialist for whatever role is presented to you.";
     lit "";
     lit "Instructions:";
     lit "1.  Determine Key Criteria: First, carefully analyze the provided 'Job Description' to identify the 5-7 most critical skills, technologies and qualifications required for the role. This set of criteria becomes your evaluation rubric. Do not use a generic software engineering rubric, it must be tailored to the specific job.";
     lit "2.  Analyze the Resume against Criteria: Next, thoroughly review the candidate's 'Resume Text'. Scrutinize their experience, projects and listed skills to find evidence of the key criteria you identified in step 1.";
     lit "3.  Score and Justify: Based on how well the resume aligns with the key criteria, provide a holistic fit score from 0 to 100. Your reasoning must clearly connect the resume's content (or lack thereof) to the job description's specific requirements.";
     lit "4.  Maintain Objectivity: Base your entire analysis strictly on the information given in the resume and the job description. Do not invent or infer details.";
     lit "5.  JSON Output Only: Your entire response must be a single, valid JSON object. Do not include any text, explanations or markdown formatting before or after the JSON object.";
     lit "";
     lit "Job Description:";
     lit "<job_description>";
     lit ""].

(** [PROMPT_TEMPLATE] between its two fields. *)
Definition PROMPT_TEMPLATE_middle : pystr :=
  join nl
    [lit "";
     lit "</job_description>";
     lit "";
     lit "Resume Text:";
     lit "<resume_text>";
     lit ""].

(** [PROMPT_TEMPLATE] after the [{resume_text}] field, with [{{] and [}}] read as braces. *)
Definition PROMPT_TEMPLATE_tail : pystr :=
  join nl
    [lit "";
     lit "</resume_text>";
     lit "";
     lit "Required JSON Output Format:";
     lit "{";
     qlit "    ^candidate_name^: ^Full Name^,";
     qlit "    ^score^: <integer from 0-100>,";
     qlit "    ^summary^: ^A 2-3 sentence summary of the candidate's overall fit for this specific role.^,";
     qlit "    ^reasoning^: ^A single string containing a detailed analysis in markdown format. It must start with '**Strengths:**' followed by bullet points and then '**Gaps:**' followed by bullet points. For example: '**Strengths:**\n- 5+ years of Java experience.\n- Experience with REST APIs and SQL.\n\n**Gaps:**\n- Lacks experience with cloud platforms (AWS/GCP) mentioned in the JD.'^,";
     qlit "    ^is_recommended^: <boolean, true if score >= 70, else false>";
     lit "}";
     lit ""].

(** [PROMPT_TEMPLATE.format(job_description=..., resume_text=...)] *)
Definition PROMPT_TEMPLATE_format (job_description resume_text : pystr) : pystr :=
  PROMPT_TEMPLATE_head ++ job_description ++ PROMPT_TEMPLATE_middle
    ++ resume_text ++ PROMPT_TEMPLATE_tail.

(** [sorted(l, key=key, reverse=True)]: a stable sort, keys descending.
    An element goes in front of the first one whose key is not larger,
    so that it stays ahead of the later elements with its own key. *)
Fixpoint insert_desc {A : Type} (key : A -> Z) (x : A) (l : list A) : list A :=
  match l with
  | [] => [x]
  | y :: l' =>
      if (key x <? key y)%Z then y :: insert_desc key x l'
      else x :: y :: l'
  end.

Fixpoint sorted_reverse {A : Type} (key : A -> Z) (l : list A) : list A :=
  match l with
  | [] => []
  | x :: l' => insert_desc key x (sorted_reverse key l')
  end.

(** Keys never increase along the list. *)
Definition descending {A : Type} (key : A -> Z) : list A -> Prop :=
  StronglySorted (fun a b => (key b <= key a)%Z).

(** The elements of [l] whose key is [k], in the order they have in [l]. *)
Definition with_key {A : Type} (key : A -> Z) (k : Z) (l : list A) : list A :=
  filter (fun a => (key a =? k)%Z) l.

Section App.
Context {ext : Externals}.

Definition call_generate_content (prompt : pystr) : M GenerateContentResponse :=
  fun l =>
    (generate_content (List.length (model_calls l)) prompt,
     l ++ [genai_generate_content prompt]).

Definition call_fitz_open (stream : bytes) : M (list (result pystr)) :=
  fun l => (fitz_open stream, l ++ [fitz_opening stream]).

Definition call_docx_Document (stream : bytes) : M (list (result pystr)) :=
  fun l => (docx_Document stream, l ++ [docx_opening stream]).

(** [parse_resume]: the value of the local [text] at [return]. *)
Definition parse_resume (file_bytes : bytes) (filename : pystr) : M pystr :=
  try_except
    (if endswith filename (lit ".pdf") then
       doc <- call_fitz_open file_bytes ;;
       pages <- lift (collect doc) ;;
       ret (join [] pages)
     else if endswith filename (lit ".docx") then
       doc <- call_docx_Document file_bytes ;;
       paragraphs <- lift (collect doc) ;;
       ret (join nl paragraphs)
     else ret [])
    (fun e =>
       if is_Exception e then
         emit (st_error (lit "Error parsing " ++ filename ++ lit " : " ++ exc_str e)) ;;
         ret []
       else raise e).

(** The text handed to [json.loads]. *)
Definition response_text (raw : pystr) : pystr :=
  replace (replace (strip raw) (lit "```json") []) (lit "```") [].

(** Lines 74-78: a [reasoning] that is a [dict] is rewritten as text. *)
Definition normalize_reasoning (response_json : dict) : dict :=
  match dict_get response_json (lit "reasoning") with
  | Some (VDict reasoning_dict) =>
      let strengths := dict_get_default reasoning_dict (lit "Strengths") (VStr (lit "N/A")) in
      let gaps := dict_get_default reasoning_dict (lit "Gaps") (VStr (lit "N/A")) in
      dict_set response_json (lit "reasoning")
        (VStr (nl ++ lit "**Strengths:**" ++ nl ++ py_format strengths
               ++ nl ++ nl ++ lit "**Gaps:**" ++ nl ++ py_format gaps))
  | _ => response_json
  end.

(** Lines 71-80, once [response] is bound. *)
Definition analyze_body (response : GenerateContentResponse) : M CandidateAnalysis :=
  raw <- lift (text response) ;;
  response_json <- lift (json_loads (response_text raw)) ;;
  match response_json with
  | VDict d => lift (CandidateAnalysis_new (normalize_reasoning d))
  | v => raise (no_attribute_get v)
  end.

Definition unbound_response : exc :=
  mk_exc UnboundLocalError
    (lit "cannot access local variable 'response' where it is not associated with a value").

(** The record of lines 84-87. *)
Definition format_error_fallback (raw : pystr) : result CandidateAnalysis :=
  CandidateAnalysis_new
    [(lit "candidate_name", VStr (lit "Unknown/Error"));
     (lit "score", VInt 0);
     (lit "summary", VStr (lit "Analysis failed due to response format error !"));
     (lit "reasoning", VStr (lit "Failed to parse model output, raw response : " ++ raw));
     (lit "is_recommended", VBool false)].

(** The record of lines 90-93. *)
Definition unexpected_error_fallback (e : exc) : result CandidateAnalysis :=
  CandidateAnalysis_new
    [(lit "candidate_name", VStr (lit "Unknown/Error"));
     (lit "score", VInt 0);
     (lit "summary", VStr (lit "Analysis failed !"));
     (lit "reasoning", VStr (lit "An unexpected error occurred : " ++ exc_str e));
     (lit "is_recommended", VBool false)].

(** The two [except] clauses, in order. *)
Definition analyze_handlers (response : option GenerateContentResponse) (e : exc)
  : M CandidateAnalysis :=
  if is_format_error e then
    emit (st_error (lit "Error parsing Gemini's JSON response : " ++ exc_str e
                    ++ lit ", the model might have returned an invalid format !")) ;;
    match response with
    | None => raise unbound_response
    | Some r =>
        raw <- lift (text r) ;;
        lift (format_error_fallback raw)
    end
  else if is_Exception e then
    emit (st_error (lit "An unexpected error occurred during analysis : " ++ exc_str e)) ;;
    lift (unexpected_error_fallback e)
  else raise e.

Definition analyze_with_gemini (job_description resume_text : pystr)
  : M CandidateAnalysis :=
  let prompt := PROMPT_TEMPLATE_format job_description resume_text in
  try_binding (call_generate_content prompt) analyze_body analyze_handlers.

Record UploadedFile := { name : pystr; content : bytes }.

(** One turn of the loop of lines 126-135; the result is [all_analyses]. *)
Definition process_file (jd_input : pystr) (total i : nat) (file : UploadedFile)
    (all_analyses : list CandidateAnalysis) : M (list CandidateAnalysis) :=
  emit (st_write (lit "Processing " ++ name file ++ lit " ...")) ;;
  let file_bytes := content file in
  resume_text <- parse_resume file_bytes (name file) ;;
  all_analyses' <-
    (if truthy resume_text then
       analysis <- analyze_with_gemini jd_input resume_text ;;
       ret (all_analyses ++ [analysis])
     else ret all_analyses) ;;
  emit (progress_bar_progress (i + 1) total) ;;
  ret all_analyses'.

Fixpoint analyze_loop (jd_input : pystr) (total i : nat) (files : list UploadedFile)
    (all_analyses : list CandidateAnalysis) : M (list CandidateAnalysis) :=
  match files with
  | [] => ret all_analyses
  | file :: rest =>
      all_analyses' <- process_file jd_input total i file all_analyses ;;
      analyze_loop jd_input total (S i) rest all_analyses'
  end.

(** Line 140. *)
Definition ranked_candidates (all_analyses : list CandidateAnalysis)
  : list CandidateAnalysis :=
  sorted_reverse score all_analyses.

Definition expander_title (candidate : CandidateAnalysis) : pystr :=
  lit "**" ++ candidate_name candidate ++ lit "**".

(** Lines 145-158: one candidate's expander. *)
Definition render_candidate (candidate : CandidateAnalysis) : M unit :=
  emit (st_expander (expander_title candidate) false) ;;
  let score_color := if is_recommended candidate then lit "green" else lit "orange" in
  let score_html :=
    lit "**Score:** <span style='color:" ++ score_color
      ++ lit "; font-size: 1.1em;'>" ++ str_of_int (score candidate)
      ++ lit "/100</span>" in
  emit (st_markdown score_html true) ;;
  (if is_recommended candidate
   then emit (st_success (lit "Recommended for Interview"))
   else emit (st_warning (lit "Review with Caution"))) ;;
  emit (st_markdown (lit "**Summary:**") false) ;;
  emit (st_markdown (summary candidate) false).

Fixpoint render_all (candidates : list CandidateAnalysis) : M unit :=
  match candidates with
  | [] => ret tt
  | candidate :: rest => render_candidate candidate ;; render_all rest
  end.

(** Lines 139-158. *)
Definition render_results (all_analyses : list CandidateAnalysis) : M unit :=
  if truthy all_analyses then
    emit (st_subheader (lit "Analysis Results")) ;;
    render_all (ranked_candidates all_analyses)
  else ret tt.

(** Lines 122-137: the batch; the result is [all_analyses]. *)
Definition run_batch (jd_input : pystr) (resume_files : list UploadedFile)
  : M (list CandidateAnalysis) :=
  emit (st_spinner (lit "Analyzing ... this may take a few moments ...")) ;;
  emit (st_progress 0) ;;
  all_analyses <- analyze_loop jd_input (List.length resume_files) 0 resume_files [] ;;
  emit progress_bar_empty ;;
  ret all_analyses.

(** The body of [if st.button("Analyze", type="primary")]. *)
Definition on_analyze (jd_input : pystr) (resume_files : list UploadedFile) : M unit :=
  if negb (truthy (strip jd_input)) then
    emit (st_error (lit "Please paste a job description."))
  else if negb (truthy resume_files) then
    emit (st_error (lit "Please upload at least one resume."))
  else
    all_analyses <- run_batch jd_input resume_files ;;
    render_results all_analyses.

(** The titles of the expanders a log shows, in order: the ranking as
    the user sees it. *)
Definition rendered_titles (l : log) : list pystr :=
  flat_map (fun ev => match ev with
                      | st_expander title _ => [title]
                      | _ => []
                      end) l.

End App.
End App.
Export App.

(* ================================================================= *)
(** ** json.loads *)

(** The decoder of the standard library (CPython 3.11, the scanner
  written in C), for use where a concrete [json_loads] is needed. *)
Module Json.

(** The limits of the interpreter the decoder runs into.
    [max_nesting] is the number of levels the recursion limit leaves to
    the scanner when it starts: so many arrays and objects may be open
    at once (it shrinks with the depth of the call stack at the call;
    a stack too deep for the scanner to start at all is not covered).
    [int_max_str_digits] is [sys.get_int_max_str_digits()], where 0
    lifts the limit. *)
Record limits := { max_nesting : nat; int_max_str_digits : nat }.

(** The defaults (a recursion limit of 1000, 4300 digits), for a call
    from the top level of a script. *)
Definition default_limits : limits :=
  {| max_nesting := 995; int_max_str_digits := 4300 |}.

Inductive failure :=
| syntax_error (msg : pystr) (pos : nat)  (* [JSONDecodeError], built where
                                             the scanner finds the error *)
| stop_iteration (pos : nat)              (* no value at [pos]; [raw_decode]
                                             turns it into [JSONDecodeError] *)
| recursion_limit (context : pystr)       (* [RecursionError] *)
| too_many_digits (digits : nat)          (* [ValueError] of [int] *)
| out_of_fuel.

(** A scanner returns what it read, the text left and the index of
    that text in the document. *)
Definition scanned (A : Type) : Type := failure + (A * pystr * nat).

Definition is_digit (c : codepoint) : bool := ((48 <=? c) && (c <=? 57))%N.

Definition whitespace (c : codepoint) : bool :=
  ((c =? 32) || (c =? 9) || (c =? 10) || (c =? 13))%N.

Fixpoint skip_whitespace (s : pystr) (pos : nat) : pystr * nat :=
  match s with
  | c :: s' => if whitespace c then skip_whitespace s' (S pos) else (s, pos)
  | [] => ([], pos)
  end.

Definition hex_value (c : codepoint) : option N :=
  if is_digit c then Some (c - 48)%N
  else if ((97 <=? c) && (c <=? 102))%N then Some (c - 87)%N
  else if ((65 <=? c) && (c <=? 70))%N then Some (c - 55)%N
  else None.

Definition hex4 (a b c d : codepoint) : option N :=
  match hex_value a, hex_value b, hex_value c, hex_value d with
  | Some x, Some y, Some z, Some w => Some (((x * 16 + y) * 16 + z) * 16 + w)%N
  | _, _, _, _ => None
  end.

(** The character a one-letter escape stands for. *)
Definition escape_char (c : codepoint) : option codepoint :=
  if (c =? 34)%N then Some 34%N          (* quote *)
  else if (c =? 92)%N then Some 92%N     (* backslash *)
  else if (c =? 47)%N then Some 47%N     (* slash *)
  else if (c =? 98)%N then Some 8%N      (* b *)
  else if (c =? 102)%N then Some 12%N    (* f *)
  else if (c =? 110)%N then Some 10%N    (* n *)
  else if (c =? 114)%N then Some 13%N    (* r *)
  else if (c =? 116)%N then Some 9%N     (* t *)
  else None.

Definition is_high_surrogate (u : N) : bool := ((55296 <=? u) && (u <=? 56319))%N.
Definition is_low_surrogate (u : N) : bool := ((56320 <=? u) && (u <=? 57343))%N.
Definition join_surrogates (hi lo : N) : N :=
  (65536 + ((hi - 55296) * 1024 + (lo - 56320)))%N.

Definition flush (pending : option N) (acc : pystr) : pystr :=
  match pending with
  | Some hi => hi :: acc
  | None => acc
  end.

Definition unterminated (begin : nat) : failure :=
  syntax_error (lit "Unterminated string starting at") begin.

Definition invalid_uXXXX (pos : nat) : failure :=
  syntax_error (lit "Invalid \uXXXX escape") pos.

(** The body of a string, from the character after its opening quote
    (at index [begin]).  [acc] holds the characters read, last first;
    [pending] is a high surrogate just read from an escape, waiting
    for the low surrogate that may follow it. *)
Fixpoint scanstring (begin : nat) (pending : option N) (acc : pystr)
    (s : pystr) (pos : nat) : scanned pystr :=
  match s with
  | [] => inl (unterminated begin)
  | c :: s1 =>
      if (c =? 34)%N then inr (rev (flush pending acc), s1, S pos)
      else if (c =? 92)%N then
        match s1 with
        | [] => inl (unterminated begin)
        | e :: s2 =>
            if (e =? 117)%N then
              match s2 with
              | h1 :: h2 :: h3 :: h4 :: ((_ :: _) as s6) =>
                  match hex4 h1 h2 h3 h4 with
                  | None => inl (invalid_uXXXX (S pos))
                  | Some u =>
                      match pending with
                      | Some hi =>
                          if is_low_surrogate u
                          then scanstring begin None (join_surrogates hi u :: acc) s6 (pos + 6)
                          else if is_high_surrogate u
                          then scanstring begin (Some u) (hi :: acc) s6 (pos + 6)
                          else scanstring begin None (u :: hi :: acc) s6 (pos + 6)
                      | None =>
                          if is_high_surrogate u
                          then scanstring begin (Some u) acc s6 (pos + 6)
                          else scanstring begin None (u :: acc) s6 (pos + 6)
                      end
                  end
              | _ => inl (invalid_uXXXX (S pos))
              end
            else
              match escape_char e with
              | Some x => scanstring begin None (x :: flush pending acc) s2 (pos + 2)
              | None => inl (syntax_error (lit "Invalid \escape") pos)
              end
        end
      else if (c <=? 31)%N then
        inl (syntax_error (lit "Invalid control character at") pos)
      else scanstring begin None (c :: flush pending acc) s1 (S pos)
  end.

(** The longest run of digits at the head of [s], and the rest. *)
Fixpoint digits (s : pystr) : pystr * pystr :=
  match s with
  | c :: s' =>
      if is_digit c then let (ds, r) := digits s' in (c :: ds, r) else ([], s)
  | [] => ([], [])
  end.

Definition nat_of_digits (ds : pystr) : Z :=
  fold_left (fun n c => (n * 10 + Z.of_N (c - 48))%Z) ds 0%Z.

(** A number at the head of [s]: its value, the rest, its length. *)
Definition match_number (s : pystr) : option (value * pystr * nat) :=
  let (minus, s1) :=
    match s with
    | c :: s' => if (c =? 45)%N then (true, s') else (false, s)
    | [] => (false, [])
    end in
  match s1 with
  | [] => None
  | d :: s2 =>
      if is_digit d then
        let (int_part, s3) :=
          if (d =? 48)%N then ([d], s2)
          else let (ds, r) := digits s2 in (d :: ds, r) in
        let (frac, s4) :=
          match s3 with
          | p :: ((f :: _) as s3') =>
              if ((p =? 46)%N && is_digit f)%bool
              then let (fs, r) := digits s3' in (p :: fs, r)
              else ([], s3)
          | _ => ([], s3)
          end in
        let (expo, s5) :=
          match s4 with
          | e :: s4' =>
              if ((e =? 101) || (e =? 69))%N then
                let (sign, s4'') :=
                  match s4' with
                  | g :: r => if ((g =? 43) || (g =? 45))%N then ([g], r) else ([], s4')
                  | [] => ([], [])
                  end in
                let (es, r) := digits s4'' in
                match es with
                | [] => ([], s4)
                | _ :: _ => (e :: sign ++ es, r)
                end
              else ([], s4)
          | [] => ([], [])
          end in
        let literal := (if minus then [45%N] else []) ++ int_part ++ frac ++ expo in
        let v :=
          match frac, expo with
          | [], [] =>
              VInt (if minus then - nat_of_digits int_part else nat_of_digits int_part)%Z
          | _, _ => VFloat literal
          end in
        Some (v, s5, List.length literal)
      else None
  end.

Definition expecting_name (pos : nat) : failure :=
  syntax_error (lit "Expecting property name enclosed in double quotes") pos.

Definition expecting_colon (pos : nat) : failure :=
  syntax_error (lit "Expecting ':' delimiter") pos.

Definition expecting_comma (pos : nat) : failure :=
  syntax_error (lit "Expecting ',' delimiter") pos.

Definition calling_a_Python_object : failure :=
  recursion_limit (lit " while calling a Python object").

(** The scanner builds a [JSONDecodeError] where it finds the error,
    with as many arrays and objects open: the call of the class, its
    [__init__] and the calls in it take three levels of the recursion
    limit.  [depth] is the number of levels left. *)
Definition errmsg (depth : nat) (f : failure) : failure :=
  match f with
  | syntax_error _ _ =>
      match depth with
      | 0 => calling_a_Python_object
      | 1 => recursion_limit []
      | 2 => calling_a_Python_object
      | _ => f
      end
  | _ => f
  end.

(** [NaN], [Infinity] and [-Infinity] go through [parse_constant], a
    call that takes a level. *)
Definition parse_constant (depth : nat) (literal : string) (s : pystr) (pos : nat)
  : scanned value :=
  match depth with
  | 0 => inl calling_a_Python_object
  | _ => inr (VFloat (lit literal), skipn (String.length literal) s,
              pos + String.length literal)
  end.

Section Decoder.
Variable lim : limits.

(** The constants, then the numbers.  An integer of more digits than
    the limit allows is refused by [int]. *)
Definition scan_atom (depth : nat) (s : pystr) (pos : nat) : scanned value :=
  if startswith s (lit "null") then inr (VNone, skipn 4 s, pos + 4)
  else if startswith s (lit "true") then inr (VBool true, skipn 4 s, pos + 4)
  else if startswith s (lit "false") then inr (VBool false, skipn 5 s, pos + 5)
  else if startswith s (lit "NaN") then parse_constant depth "NaN" s pos
  else if startswith s (lit "Infinity") then parse_constant depth "Infinity" s pos
  else if startswith s (lit "-Infinity") then parse_constant depth "-Infinity" s pos
  else
    match match_number s with
    | Some (VInt z, r, n) =>
        let digits := n - (if startswith s (lit "-") then 1 else 0) in
        if (negb (int_max_str_digits lim =? 0) && (int_max_str_digits lim <? digits))%nat
        then inl (too_many_digits digits)
        else inr (VInt z, r, pos + n)
    | Some (v, r, n) => inr (v, r, pos + n)
    | None => inl (stop_iteration pos)
    end.

(** [scan_once] reads one value; [object_members] reads the members of
    an object from a key on, [array_items] the items of an array from
    an item on.  Every call takes one unit of [fuel]; [depth] is the
    number of levels left, one of which every array or object open
    takes. *)
Fixpoint scan_once (fuel depth : nat) (s : pystr) (pos : nat) {struct fuel}
  : scanned value :=
  match fuel with
  | O => inl out_of_fuel
  | S fuel' =>
      match s with
      | [] => inl (stop_iteration pos)
      | c :: s' =>
          if (c =? 34)%N then
            match scanstring pos None [] s' (S pos) with
            | inl f => inl (errmsg depth f)
            | inr (str, r, p) => inr (VStr str, r, p)
            end
          else if (c =? 123)%N then
            match depth with
            | O => inl (recursion_limit
                          (lit " while decoding a JSON object from a unicode string"))
            | S depth' =>
                let (s1, p1) := skip_whitespace s' (S pos) in
                match s1 with
                | c1 :: s2 =>
                    if (c1 =? 125)%N then inr (VDict [], s2, S p1)
                    else object_members fuel' depth' [] s1 p1
                | [] => object_members fuel' depth' [] s1 p1
                end
            end
          else if (c =? 91)%N then
            match depth with
            | O => inl (recursion_limit
                          (lit " while decoding a JSON array from a unicode string"))
            | S depth' =>
                let (s1, p1) := skip_whitespace s' (S pos) in
                match s1 with
                | c1 :: s2 =>
                    if (c1 =? 93)%N then inr (VList [], s2, S p1)
                    else array_items fuel' depth' [] s1 p1
                | [] => array_items fuel' depth' [] s1 p1
                end
            end
          else scan_atom depth s pos
      end
  end

with object_members (fuel depth : nat) (acc : dict) (s : pystr) (pos : nat)
    {struct fuel} : scanned value :=
  match fuel with
  | O => inl out_of_fuel
  | S fuel' =>
      match s with
      | [] => inl (errmsg depth (expecting_name pos))
      | c :: s1 =>
          if (c =? 34)%N then
            match scanstring pos None [] s1 (S pos) with
            | inl f => inl (errmsg depth f)
            | inr (key, s2, p2) =>
                let (s3, p3) := skip_whitespace s2 p2 in
                match s3 with
                | [] => inl (errmsg depth (expecting_colon p3))
                | colon :: s4 =>
                    if (colon =? 58)%N then
                      let (s5, p5) := skip_whitespace s4 (S p3) in
                      match scan_once fuel' depth s5 p5 with
                      | inl f => inl f
                      | inr (v, s6, p6) =>
                          let acc' := dict_set acc key v in
                          let (s7, p7) := skip_whitespace s6 p6 in
                          match s7 with
                          | [] => inl (errmsg depth (expecting_comma p7))
                          | d :: s8 =>
                              if (d =? 125)%N then inr (VDict acc', s8, S p7)
                              else if (d =? 44)%N then
                                let (s9, p9) := skip_whitespace s8 (S p7) in
                                object_members fuel' depth acc' s9 p9
                              else inl (errmsg depth (expecting_comma p7))
                          end
                      end
                    else inl (errmsg depth (expecting_colon p3))
                end
            end
          else inl (errmsg depth (expecting_name pos))
      end
  end

with array_items (fuel depth : nat) (acc : list value) (s : pystr) (pos : nat)
    {struct fuel} : scanned value :=
  match fuel with
  | O => inl out_of_fuel
  | S fuel' =>
      match scan_once fuel' depth s pos with
      | inl f => inl f
      | inr (v, s1, p1) =>
          let (s2, p2) := skip_whitespace s1 p1 in
          match s2 with
          | [] => inl (errmsg depth (expecting_comma p2))
          | d :: s3 =>
              if (d =? 93)%N then inr (VList (rev (v :: acc)), s3, S p2)
              else if (d =? 44)%N then
                let (s4, p4) := skip_whitespace s3 (S p2) in
                array_items fuel' depth (v :: acc) s4 p4
              else inl (errmsg depth (expecting_comma p2))
          end
      end
  end.

(** Line and column of the end of [before], both counted from 1. *)
Fixpoint line_column (before : pystr) (line column : nat) : nat * nat :=
  match before with
  | [] => (line, column)
  | c :: rest =>
      if (c =? 10)%N then line_column rest (S line) 1
      else line_column rest line (S column)
  end.

(** [JSONDecodeError(msg, doc, pos)] *)
Definition decode_error (doc msg : pystr) (pos : nat) : exc :=
  let (line, column) := line_column (firstn pos doc) 1 1 in
  mk_exc JSONDecodeError
    (msg ++ lit ": line " ++ str_of_nat line ++ lit " column " ++ str_of_nat column
     ++ lit " (char " ++ str_of_nat pos ++ lit ")").

Definition recursion_error (context : pystr) : exc :=
  mk_exc RecursionError (lit "maximum recursion depth exceeded" ++ context).

(** [raise JSONDecodeError(msg, doc, pos)] with [depth] levels left. *)
Definition raise_decode_error (depth : nat) (doc msg : pystr) (pos : nat) : exc :=
  match errmsg depth (syntax_error msg pos) with
  | recursion_limit context => recursion_error context
  | _ => decode_error doc msg pos
  end.

(** The [ValueError] of [int] on too long a literal. *)
Definition digits_error (digits : nat) : exc :=
  mk_exc ValueError
    (lit "Exceeds the limit (" ++ str_of_nat (int_max_str_digits lim)
     ++ lit " digits) for integer string conversion: value has "
     ++ str_of_nat digits
     ++ lit " digits; use sys.set_int_max_str_digits() to increase the limit").

(** [json.loads(s)] for a [str].  The fuel covers every text.
    [raw_decode] raises the error of a missing value one level above
    the scanner, [decode] the one of extra data two levels above. *)
Definition loads (s : pystr) : result value :=
  if startswith s [65279%N] then
    Raise (decode_error s (lit "Unexpected UTF-8 BOM (decode using utf-8-sig)") 0)
  else
    let (s1, p1) := skip_whitespace s 0 in
    match scan_once (2 * List.length s + 2) (max_nesting lim) s1 p1 with
    | inl (syntax_error msg pos) => Raise (decode_error s msg pos)
    | inl (stop_iteration pos) =>
        Raise (raise_decode_error (1 + max_nesting lim) s (lit "Expecting value") pos)
    | inl (recursion_limit context) => Raise (recursion_error context)
    | inl (too_many_digits digits) => Raise (digits_error digits)
    | inl out_of_fuel => Raise (recursion_error [])
    | inr (v, s2, p2) =>
        let (s3, p3) := skip_whitespace s2 p2 in
        match s3 with
        | [] => Ok v
        | _ :: _ =>
            Raise (raise_decode_error (2 + max_nesting lim) s (lit "Extra data") p3)
        end
    end.

End Decoder.

(** A scanner result that is not a shortage of fuel, and that leaves
    less text than it was given. *)
Definition well_fuelled (s : pystr) (r : scanned value) : Prop :=
  match r with
  | inl out_of_fuel => False
  | inl _ => True
  | inr (_, rest, _) => (List.length rest < List.length s)%nat
  end.

End Json.

(* ================================================================= *)
(** ** A concrete environment *)

(** [json.loads] is the decoder above, under the limits given.  The
  rest of the environment is supplied by the caller: the model's
  answers, the two document readers, the limits of the interpreter,
  and the library behaviour that differs between versions
  (what pydantic makes of an input of another type than the field's,
  how a value other than a [str] formats, the text of a validation
  error). *)
Module Reference.

Record Stubs := {
  decoder_limits : Json.limits;
  model : nat -> pystr -> result GenerateContentResponse;
  pdf_reader : bytes -> result (list (result pystr));
  docx_reader : bytes -> result (list (result pystr));
  format_other : value -> pystr;
  lax_str : value -> option pystr;
  lax_int : value -> option Z;
  lax_bool : value -> option bool;
  validation_text : dict -> list (pystr * problem) -> pystr
}.

Definition externals (s : Stubs) : Externals := {|
  generate_content := model s;
  json_loads := Json.loads (decoder_limits s);
  py_format := fun v => match v with VStr x => x | _ => format_other s v end;
  py_format_str := fun _ => eq_refl;
  coerce_str := fun v => match v with VStr x => Some x | _ => lax_str s v end;
  coerce_int := fun v => match v with VInt z => Some z | _ => lax_int s v end;
  coerce_bool := fun v => match v with VBool b => Some b | _ => lax_bool s v end;
  coerce_str_str := fun _ => eq_refl;
  coerce_int_int := fun _ => eq_refl;
  coerce_bool_bool := fun _ => eq_refl;
  validation_error_str := validation_text s;
  fitz_open := pdf_reader s;
  docx_Document := docx_reader s
|}.

(** A model that gives the same answer to every prompt, readers that
    find the given pages and paragraphs in every document, pydantic
    reading nothing but the field's own type. *)
Definition canned (answer : pystr) (pages paragraphs : list pystr) : Stubs := {|
  decoder_limits := Json.default_limits;
  model := fun _ _ => Ok {| text := Ok answer |};
  pdf_reader := fun _ => Ok (map Ok pages);
  docx_reader := fun _ => Ok (map Ok paragraphs);
  format_other := type_name;
  lax_str := fun _ => None;
  lax_int := fun _ => None;
  lax_bool := fun _ => None;
  validation_text := fun _ errs => join (lit ", ") (map fst errs)
|}.

(** The bytes of a document read as Latin-1 text. *)
Definition latin1 (stream : bytes) : pystr := map Byte.to_N stream.

(** A model whose answer depends on the resume it is shown: the first
    answer of the table whose key occurs in the prompt.  The readers
    find in a document one page, or one paragraph, holding its bytes as
    text. *)
Fixpoint lookup_answer (table : list (pystr * pystr)) (prompt : pystr) : pystr :=
  match table with
  | [] => []
  | (key, answer) :: rest =>
      if contains prompt key then answer else lookup_answer rest prompt
  end.

Definition scripted (table : list (pystr * pystr)) : Stubs := {|
  decoder_limits := Json.default_limits;
  model := fun _ prompt => Ok {| text := Ok (lookup_answer table prompt) |};
  pdf_reader := fun stream => Ok [Ok (latin1 stream)];
  docx_reader := fun stream => Ok [Ok (latin1 stream)];
  format_other := type_name;
  lax_str := fun _ => None;
  lax_int := fun _ => None;
  lax_bool := fun _ => None;
  validation_text := fun _ errs => join (lit ", ") (map fst errs)
|}.

End Reference.

(* ================================================================= *)
(** ** What a log shows *)

Module Observe.

(** The error messages shown, in order. *)
Definition errors_shown (l : log) : list pystr :=
  flat_map (fun ev => match ev with
                      | st_error msg => [msg]
                      | _ => []
                      end) l.

(** The lines written by [st.write], in order. *)
Definition announcements (l : log) : list pystr :=
  flat_map (fun ev => match ev with
                      | st_write msg => [msg]
                      | _ => []
                      end) l.

(** The values the progress bar was set to, as numerator and denominator. *)
Definition progress_steps (l : log) : list (nat * nat) :=
  flat_map (fun ev => match ev with
                      | progress_bar_progress a b => [(a, b)]
                      | _ => []
                      end) l.

(** The sub-headers shown. *)
Definition subheaders (l : log) : list pystr :=
  flat_map (fun ev => match ev with
                      | st_subheader msg => [msg]
                      | _ => []
                      end) l.

(** Events of the libraries and error messages: what extraction and
    analysis may add to a log. *)
Definition backstage (ev : event) : Prop :=
  match ev with
  | st_error _ | genai_generate_content _ | fitz_opening _ | docx_opening _ => True
  | _ => False
  end.

(** The line of line 127 for a file. *)
Definition announcement (file : UploadedFile) : pystr :=
  lit "Processing " ++ name file ++ lit " ...".

(** The name selects neither reader. *)
Definition unrecognized (filename : pystr) : Prop :=
  endswith filename (lit ".pdf") = false /\ endswith filename (lit ".docx") = false.


(** The record both handlers build, up to summary and reasoning. *)
Definition is_fallback (c : CandidateAnalysis) : Prop :=
  candidate_name c = lit "Unknown/Error" /\ score c = 0%Z /\ is_recommended c = false.

Section Recoverable.
Context {ext : Externals}.

(** The libraries fail only in ways the handlers recover from: the
    model call and the reading of its text raise no exception of the
    classes of the first handler, and nothing raises outside
    [Exception]. *)
Definition recoverable : Prop :=
  (forall n prompt e,
     generate_content n prompt = Raise e ->
     is_format_error e = false /\ is_Exception e = true)
  /\ (forall n prompt response e,
        generate_content n prompt = Ok response -> text response = Raise e ->
        is_format_error e = false /\ is_Exception e = true)
  /\ (forall s e, json_loads s = Raise e -> is_Exception e = true)
  /\ (forall stream e, fitz_open stream = Raise e -> is_Exception e = true)
  /\ (forall stream doc e,
        fitz_open stream = Ok doc -> collect doc = Raise e -> is_Exception e = true)
  /\ (forall stream e, docx_Document stream = Raise e -> is_Exception e = true)
  /\ (forall stream doc e,
        docx_Document stream = Ok doc -> collect doc = Raise e -> is_Exception e = true).

End Recoverable.

(** What line 71 does to the answer, said without the string methods:
    the white space at the two ends is trimmed, then every occurrence of
    the opening fence with its language tag is deleted, then every
    occurrence of the bare fence in what is left. *)
Definition prepared (raw r : pystr) : Prop :=
  exists t m,
    trimmed raw t /\ deletes (lit "```json") t m /\ deletes (lit "```") m r.

End Observe.
Export Observe.

(* ================================================================= *)
(** ** The preparation of the answer, as the specification words it *)

Module Spec.

Definition fence : pystr := lit "```".
Definition fence_json : pystr := lit "```json".

Definition strip_leading_fence (s : pystr) : pystr :=
  if startswith s fence_json then skipn (List.length fence_json) s
  else if startswith s fence then skipn (List.length fence) s
  else s.

Definition strip_trailing_fence (s : pystr) : pystr :=
  if endswith s fence then firstn (List.length s - List.length fence) s
  else s.

(** Trim the surrounding white space, then strip a leading and a
    trailing code-fence marker if present. *)
Definition trim_and_unwrap (raw : pystr) : pystr :=
  strip_trailing_fence (strip_leading_fence (strip raw)).

End Spec.

(* ================================================================= *)
(** ** Sample runs *)

Module Sample.

Definition job : pystr := lit "Senior Python developer, REST APIs, SQL".
Definition resume : pystr := lit "Jane Doe. Ten years of Python and SQL.".
Definition prompt : pystr := PROMPT_TEMPLATE_format job resume.

(** Answers of the model. *)
Definition not_json : pystr := lit "Sorry, I cannot help with that.".

Definition inconsistent : pystr :=
  qlit "{^candidate_name^: ^Jane Doe^, ^score^: 50, ^summary^: ^Partial fit.^, ^reasoning^: ^**Strengths:** Python^, ^is_recommended^: true}".

Definition empty_texts : pystr :=
  qlit "{^candidate_name^: ^^, ^score^: 50, ^summary^: ^^, ^reasoning^: ^^, ^is_recommended^: false}".

Definition score_101 : pystr :=
  qlit "{^candidate_name^: ^Jane Doe^, ^score^: 101, ^summary^: ^Great.^, ^reasoning^: ^**Strengths:** all^, ^is_recommended^: true}".

(** The object [score_101] decodes to. *)
Definition score_101_object : dict :=
  [(lit "candidate_name", VStr (lit "Jane Doe")); (lit "score", VInt 101);
   (lit "summary", VStr (lit "Great."));
   (lit "reasoning", VStr (lit "**Strengths:** all"));
   (lit "is_recommended", VBool true)].

Definition fenced : pystr :=
  lit "```json" ++ nl ++ inconsistent ++ nl ++ lit "```" ++ nl.

Definition fence_inside : pystr :=
  qlit "{^reasoning^: ^wrap code in ``` marks^}".

(** Valid JSON as sent; the deletion of the fence turns the extra key
    into a second [is_recommended], resp. a second [score]. *)
Definition fenced_flag : pystr :=
  qlit "{^candidate_name^: ^Jane Doe^, ^score^: 50, ^summary^: ^Partial fit.^, ^reasoning^: ^r^, ^is_recommended^: true, ^is_```recommended^: false}".

Definition fenced_score : pystr :=
  qlit "{^candidate_name^: ^Jane Doe^, ^score^: 150, ^sc```ore^: 50, ^summary^: ^Great.^, ^reasoning^: ^r^, ^is_recommended^: true}".

(** Environments. *)
Definition answering (answer : pystr) : Externals :=
  Reference.externals (Reference.canned answer [lit "Jane "; lit "Doe"] [lit "Jane"; lit "Doe"]).

(** Documents of three pages and of five paragraphs. *)
Definition long_documents : Externals :=
  Reference.externals
    (Reference.canned not_json
       [lit "Jane "; lit "Doe"; lit ", engineer"]
       [lit "Jane Doe"; []; lit "Skills"; lit "Rocq"; lit "OCaml"]).

Definition blank_documents : Externals :=
  Reference.externals (Reference.canned not_json [] []).

Definition answer_for (who : string) (points : string) : pystr :=
  qlit "{^candidate_name^: ^" ++ lit who ++ qlit "^, ^score^: " ++ lit points
    ++ qlit ", ^summary^: ^s^, ^reasoning^: ^r^, ^is_recommended^: false}".

Definition three_candidates : Externals :=
  Reference.externals
    (Reference.scripted
       [(lit "Alice", answer_for "Alice" "90");
        (lit "Bob", answer_for "Bob" "40");
        (lit "Carol", answer_for "Carol" "90")]).

Definition file (filename body : string) : UploadedFile :=
  {| name := lit filename; content := list_byte_of_string body |}.

(** Bob, then Alice and Carol with equal scores, uploaded in this order. *)
Definition uploads : list UploadedFile :=
  [file "bob.pdf" "Bob, junior"; file "alice.docx" "Alice, senior";
   file "carol.pdf" "Carol, senior"].

Definition candidate (who : string) (points : Z) : CandidateAnalysis :=
  {| candidate_name := lit who; score := points; summary := lit "s";
     reasoning := lit "r"; is_recommended := false |}.


Definition a_list : pystr := lit "[1, 2]".

Definition failing_model (kind : exc_class) (msg : string) : Externals :=
  Reference.externals
    {| Reference.decoder_limits := Json.default_limits;
       Reference.model := fun _ _ => Raise (mk_exc kind (lit msg));
       Reference.pdf_reader := fun stream => Ok [Ok (Reference.latin1 stream)];
       Reference.docx_reader := fun stream => Ok [Ok (Reference.latin1 stream)];
       Reference.format_other := type_name;
       Reference.lax_str := fun _ => None;
       Reference.lax_int := fun _ => None;
       Reference.lax_bool := fun _ => None;
       Reference.validation_text := fun _ errs => join (lit ", ") (map fst errs) |}.

(** A PDF reader that cannot open the document, a DOCX reader whose
    second paragraph cannot be read. *)
Definition corrupt_documents : Externals :=
  Reference.externals
    {| Reference.decoder_limits := Json.default_limits;
       Reference.model := fun _ _ => Ok {| text := Ok not_json |};
       Reference.pdf_reader := fun _ => Raise (mk_exc ValueError (lit "cannot open broken document"));
       Reference.docx_reader :=
         fun _ => Ok [Ok (lit "Jane Doe"); Raise (mk_exc KeyError (lit "'w:t'")); Ok (lit "Python")];
       Reference.format_other := type_name;
       Reference.lax_str := fun _ => None;
       Reference.lax_int := fun _ => None;
       Reference.lax_bool := fun _ => None;
       Reference.validation_text := fun _ errs => join (lit ", ") (map fst errs) |}.

(** More uploads. *)
Definition mixed_uploads : list UploadedFile :=
  uploads ++ [file "dave.PDF" "Dave, senior"].

Definition capital_uploads : list UploadedFile :=
  [file "dave.PDF" "Dave, senior"; file "erin.Docx" "Erin, junior"].

Definition blank : pystr := lit "  " ++ [8195%N; 9%N] ++ nl.

Definition small_body : pystr := nl ++ qlit "{^score^: 50}" ++ nl.

Definition with_extra_key : dict :=
  [(lit "confidence", VFloat (lit "0.9")); (lit "score", VInt 50);
   (lit "candidate_name", VStr (lit "Jane Doe")); (lit "summary", VStr (lit "s"));
   (lit "reasoning", VStr (lit "r")); (lit "is_recommended", VBool true)].

Definition in_schema_order : dict :=
  [(lit "candidate_name", VStr (lit "Jane Doe")); (lit "score", VInt 50);
   (lit "summary", VStr (lit "s")); (lit "reasoning", VStr (lit "r"));
   (lit "is_recommended", VBool true)].

Definition fallback_503 : CandidateAnalysis :=
  {| candidate_name := lit "Unknown/Error"; score := 0;
     summary := lit "Analysis failed !";
     reasoning := lit "An unexpected error occurred : 503 Service Unavailable";
     is_recommended := false |}.

End Sample.

(* ================================================================= *)
(** * Properties *)

(** ** Strings *)

Section StringFacts.

Lemma str_eqb_eq (a b : pystr) : str_eqb a b = true <-> a = b.
Proof.
  revert b; induction a as [|x a IH]; intros [|y b]; simpl; split;
    try congruence; try reflexivity.
  - intros H. apply andb_true_iff in H as [H1 H2].
    apply N.eqb_eq in H1. apply IH in H2. congruence.
  - intros H. injection H as -> ->. rewrite N.eqb_refl. simpl. now apply IH.
Qed.

Lemma str_eqb_refl (a : pystr) : str_eqb a a = true.
Proof. now apply str_eqb_eq. Qed.

Lemma str_eqb_neq (a b : pystr) : str_eqb a b = false <-> a <> b.
Proof.
  split.
  - intros H E. apply str_eqb_eq in E. congruence.
  - intros H. destruct (str_eqb a b) eqn:E; [|reflexivity].
    apply str_eqb_eq in E. contradiction.
Qed.

Lemma startswith_spec (s prefix : pystr) :
  startswith s prefix = true <-> exists rest, s = prefix ++ rest.
Proof.
  revert s; induction prefix as [|p prefix IH]; intros s; simpl.
  - split; [intros _; now exists s | reflexivity].
  - destruct s as [|c s]; simpl.
    + split; [discriminate | intros [rest H]; discriminate].
    + split.
      * intros H. apply andb_true_iff in H as [H1 H2].
        apply N.eqb_eq in H1. apply IH in H2 as [rest ->].
        exists rest. now subst.
      * intros [rest H]. injection H as -> ->.
        rewrite N.eqb_refl. simpl. apply IH. now exists rest.
Qed.

Lemma endswith_spec (s suffix : pystr) :
  endswith s suffix = true <-> exists before, s = before ++ suffix.
Proof.
  unfold endswith. rewrite startswith_spec. split.
  - intros [rest H]. exists (rev rest).
    rewrite <- (rev_involutive s), H, rev_app_distr, rev_involutive. reflexivity.
  - intros [before ->]. exists (rev before). apply rev_app_distr.
Qed.

Lemma endswith_false (s suffix : pystr) :
  (~ exists before, s = before ++ suffix) -> endswith s suffix = false.
Proof.
  intros H. destruct (endswith s suffix) eqn:E; [|reflexivity].
  apply endswith_spec in E. contradiction.
Qed.

Lemma join_empty_sep (parts : list pystr) : join [] parts = concat parts.
Proof.
  induction parts as [|x [|y rest] IH]; simpl in *.
  - reflexivity.
  - now rewrite app_nil_r.
  - now rewrite IH.
Qed.

End StringFacts.

(** ** The decoder *)

Section DecoderFuel.
Import Json.

Lemma skip_whitespace_length (s : pystr) (pos : nat) :
  (List.length (fst (skip_whitespace s pos)) <= List.length s)%nat.
Proof.
  revert pos. induction s as [|c s IH]; intros pos; simpl; [lia|].
  destruct (whitespace c); simpl; [specialize (IH (S pos)); lia | lia].
Qed.

Ltac scanstring_step IH :=
  match goal with
  | |- context [scanstring ?b ?p ?a ?t ?q] =>
      let H := fresh "H" in
      pose proof (IH t b p a q) as H;
      destruct (scanstring b p a t q) as [[]|[[? ?] ?]];
      first [ exact I
            | exfalso; apply H; simpl in *; lia
            | specialize (H ltac:(simpl in *; lia)); simpl in *; lia ]
  end.

Lemma scanstring_shrinks (n : nat) :
  forall s begin pending acc pos,
    (List.length s <= n)%nat ->
    match scanstring begin pending acc s pos with
    | inl out_of_fuel => False
    | inl _ => True
    | inr (_, rest, _) => (List.length rest < List.length s)%nat
    end.
Proof.
  induction n as [|n IH]; intros [|c s1] begin pending acc pos L;
    try exact I; try (simpl in L; lia).
  cbn [scanstring].
  destruct (c =? 34)%N; [simpl; lia|].
  destruct (c =? 92)%N.
  - destruct s1 as [|e s2]; [exact I|].
    destruct (e =? 117)%N.
    + destruct s2 as [|h1 [|h2 [|h3 [|h4 [|x s6]]]]]; try exact I.
      destruct (hex4 h1 h2 h3 h4) as [u|]; [|exact I].
      destruct pending as [hi|].
      * destruct (is_low_surrogate u); [|destruct (is_high_surrogate u)];
          scanstring_step IH.
      * destruct (is_high_surrogate u); scanstring_step IH.
    + destruct (escape_char e) as [y|]; [|exact I]. scanstring_step IH.
  - destruct (c <=? 31)%N; [exact I|]. scanstring_step IH.
Qed.

Lemma digits_length (s : pystr) :
  (List.length (snd (digits s)) <= List.length s)%nat.
Proof.
  induction s as [|c s IH]; simpl; [lia|].
  destruct (is_digit c); [|simpl; lia].
  destruct (digits s) as [ds r]. simpl in *. lia.
Qed.

Lemma match_number_shrinks (s : pystr) (v : value) (r : pystr) (n : nat) :
  match_number s = Some (v, r, n) -> (List.length r < List.length s)%nat.
Proof.
  unfold match_number.
  set (m := match s with
            | c :: s' => if (c =? 45)%N then (true, s') else (false, s)
            | [] => (false, [])
            end).
  assert (L1 : (List.length (snd m) <= List.length s)%nat).
  { subst m. destruct s as [|c s']; simpl; [lia|]. destruct (c =? 45)%N; simpl; lia. }
  destruct m as [minus s1]. simpl in L1.
  destruct s1 as [|d s2]; [discriminate|].
  destruct (is_digit d); [|discriminate].
  set (ip := if (d =? 48)%N then ([d], s2) else let (ds, r0) := digits s2 in (d :: ds, r0)).
  assert (L3 : (List.length (snd ip) <= List.length s2)%nat).
  { subst ip. destruct (d =? 48)%N; simpl; [lia|].
    pose proof (digits_length s2). destruct (digits s2); simpl in *; lia. }
  destruct ip as [int_part s3]. simpl in L3.
  set (fp := match s3 with
             | p :: (f :: _) as s3' =>
                 if ((p =? 46)%N && is_digit f)%bool
                 then let (fs, r0) := digits s3' in (p :: fs, r0)
                 else ([], s3)
             | _ => ([], s3)
             end).
  assert (L4 : (List.length (snd fp) <= List.length s3)%nat).
  { subst fp. destruct s3 as [|p [|f s3'']]; cbv beta iota; try (simpl; lia).
    destruct ((p =? 46)%N && is_digit f)%bool; [|simpl; lia].
    pose proof (digits_length (f :: s3'')) as D.
    destruct (digits (f :: s3'')) as [fs r0]. cbn [snd List.length] in *. lia. }
  destruct fp as [frac s4]. simpl in L4.
  set (ep := match s4 with
             | e :: s4' =>
                 if ((e =? 101) || (e =? 69))%N then
                   let (sign, s4'') :=
                     match s4' with
                     | g :: r0 => if ((g =? 43) || (g =? 45))%N then ([g], r0) else ([], s4')
                     | [] => ([], [])
                     end in
                   let (es, r0) := digits s4'' in
                   match es with
                   | [] => ([], s4)
                   | _ :: _ => (e :: sign ++ es, r0)
                   end
                 else ([], s4)
             | [] => ([], [])
             end).
  assert (L5 : (List.length (snd ep) <= List.length s4)%nat).
  { subst ep. destruct s4 as [|e s4']; cbv beta iota; [simpl; lia|].
    destruct ((e =? 101) || (e =? 69))%N; [|simpl; lia].
    destruct s4' as [|g r0]; cbv beta iota; [simpl; lia|].
    destruct ((g =? 43) || (g =? 45))%N.
    - pose proof (digits_length r0) as D.
      destruct (digits r0) as [[|? ?] ?]; cbn [snd List.length] in *; lia.
    - pose proof (digits_length (g :: r0)) as D.
      destruct (digits (g :: r0)) as [[|? ?] ?]; cbn [snd List.length] in *; lia. }
  destruct ep as [expo s5]. simpl in L5.
  intros H. injection H as _ <- _. simpl in *. lia.
Qed.

Lemma startswith_skipn (s prefix : pystr) :
  startswith s prefix = true ->
  List.length (skipn (List.length prefix) s) + List.length prefix = List.length s.
Proof.
  intros H. apply startswith_spec in H as [rest ->].
  induction prefix as [|p prefix IH]; simpl in *; lia.
Qed.

Lemma well_fuelled_errmsg (s : pystr) (depth : nat) (f : failure) :
  well_fuelled s (inl f) -> well_fuelled s (inl (errmsg depth f)).
Proof.
  destruct f; simpl; try exact (fun H => H).
  destruct depth as [|[|[|depth]]]; exact (fun H => H).
Qed.

Lemma scan_atom_shrinks (lim : limits) (depth : nat) (s : pystr) (pos : nat) :
  well_fuelled s (scan_atom lim depth s pos).
Proof.
  unfold scan_atom, well_fuelled, parse_constant.
  repeat match goal with
         | |- context [if startswith s (lit ?p) then _ else _] =>
             let E := fresh "E" in
             destruct (startswith s (lit p)) eqn:E;
             [apply startswith_skipn in E; destruct depth;
              simpl in E |- *; first [exact I | lia]|]
         end.
  destruct (match_number s) as [[[v r] n]|] eqn:M; [|exact I].
  pose proof (match_number_shrinks _ _ _ _ M) as L.
  destruct v; try exact L.
  destruct (_ && _)%bool; [exact I | exact L].
Qed.

Lemma scan_fuel (lim : limits) (fuel : nat) :
  (forall depth s pos, (2 * List.length s + 1 <= fuel)%nat ->
     well_fuelled s (scan_once lim fuel depth s pos))
  /\ (forall depth acc s pos, (2 * List.length s + 1 <= fuel)%nat ->
        well_fuelled s (object_members lim fuel depth acc s pos))
  /\ (forall depth acc s pos, (2 * List.length s + 2 <= fuel)%nat ->
        well_fuelled s (array_items lim fuel depth acc s pos)).
Proof.
  assert (bad : forall s depth msg pos,
             well_fuelled s (inl (errmsg depth (syntax_error msg pos))))
    by (intros; now apply well_fuelled_errmsg).
  induction fuel as [|fuel (IHs & IHo & IHa)].
  { repeat split; intros; lia. }
  split; [|split].
  - intros depth [|c s'] pos L; [exact I|]. cbn [scan_once].
    destruct (c =? 34)%N.
    { pose proof (scanstring_shrinks _ s' pos None [] (S pos) (Nat.le_refl _)) as Hs.
      destruct (scanstring pos None [] s' (S pos)) as [f|[[? ?] ?]];
        [apply well_fuelled_errmsg; destruct f; simpl; trivial
        | simpl in *; lia]. }
    destruct (c =? 123)%N.
    { destruct depth as [|depth]; [exact I|].
      pose proof (skip_whitespace_length s' (S pos)) as W.
      destruct (skip_whitespace s' (S pos)) as [s1 p1]. simpl in W.
      assert (O : well_fuelled s1 (object_members lim fuel depth [] s1 p1))
        by (apply IHo; simpl in L; lia).
      destruct s1 as [|c1 s2].
      - destruct (object_members lim fuel depth [] [] p1) as [[]|[[? ?] ?]];
          simpl in *; try exact I; try contradiction; lia.
      - destruct (c1 =? 125)%N; [simpl in *; lia|].
        destruct (object_members lim fuel depth [] (c1 :: s2) p1) as [[]|[[? ?] ?]];
          simpl in *; try exact I; try contradiction; lia. }
    destruct (c =? 91)%N.
    { destruct depth as [|depth]; [exact I|].
      pose proof (skip_whitespace_length s' (S pos)) as W.
      destruct (skip_whitespace s' (S pos)) as [s1 p1]. simpl in W.
      assert (O : well_fuelled s1 (array_items lim fuel depth [] s1 p1))
        by (apply IHa; simpl in L; lia).
      destruct s1 as [|c1 s2].
      - destruct (array_items lim fuel depth [] [] p1) as [[]|[[? ?] ?]];
          simpl in *; try exact I; try contradiction; lia.
      - destruct (c1 =? 93)%N; [simpl in *; lia|].
        destruct (array_items lim fuel depth [] (c1 :: s2) p1) as [[]|[[? ?] ?]];
          simpl in *; try exact I; try contradiction; lia. }
    apply scan_atom_shrinks.
  - intros depth acc [|c s1] pos L; [apply bad|]. cbn [object_members].
    destruct (c =? 34)%N; [|apply bad].
    pose proof (scanstring_shrinks _ s1 pos None [] (S pos) (Nat.le_refl _)) as Hs.
    destruct (scanstring pos None [] s1 (S pos)) as [f|[[key s2] p2]];
      [apply well_fuelled_errmsg; destruct f; simpl; trivial|].
    pose proof (skip_whitespace_length s2 p2) as W3.
    destruct (skip_whitespace s2 p2) as [s3 p3]. simpl in W3.
    destruct s3 as [|colon s4]; [apply bad|].
    destruct (colon =? 58)%N; [|apply bad].
    pose proof (skip_whitespace_length s4 (S p3)) as W5.
    destruct (skip_whitespace s4 (S p3)) as [s5 p5]. simpl in W5.
    assert (V : well_fuelled s5 (scan_once lim fuel depth s5 p5))
      by (apply IHs; simpl in *; lia).
    destruct (scan_once lim fuel depth s5 p5) as [[]|[[v s6] p6]];
      try exact I; try contradiction.
    pose proof (skip_whitespace_length s6 p6) as W7.
    destruct (skip_whitespace s6 p6) as [s7 p7]. simpl in W7.
    destruct s7 as [|d s8]; [apply bad|].
    destruct (d =? 125)%N; [simpl in *; lia|].
    destruct (d =? 44)%N; [|apply bad].
    pose proof (skip_whitespace_length s8 (S p7)) as W9.
    destruct (skip_whitespace s8 (S p7)) as [s9 p9]. simpl in W9.
    assert (O : well_fuelled s9
                  (object_members lim fuel depth (dict_set acc key v) s9 p9))
      by (apply IHo; simpl in *; lia).
    destruct (object_members lim fuel depth (dict_set acc key v) s9 p9)
      as [[]|[[? ?] ?]];
      simpl in *; try exact I; try contradiction; lia.
  - intros depth acc s pos L. cbn [array_items].
    assert (V : well_fuelled s (scan_once lim fuel depth s pos)) by (apply IHs; lia).
    destruct (scan_once lim fuel depth s pos) as [[]|[[v s1] p1]];
      try exact I; try contradiction.
    pose proof (skip_whitespace_length s1 p1) as W2.
    destruct (skip_whitespace s1 p1) as [s2 p2]. simpl in W2.
    destruct s2 as [|d s3]; [apply bad|].
    destruct (d =? 93)%N; [simpl in *; lia|].
    destruct (d =? 44)%N; [|apply bad].
    pose proof (skip_whitespace_length s3 (S p2)) as W4.
    destruct (skip_whitespace s3 (S p2)) as [s4 p4]. simpl in W4.
    assert (O : well_fuelled s4 (array_items lim fuel depth (v :: acc) s4 p4))
      by (apply IHa; simpl in *; lia).
    destruct (array_items lim fuel depth (v :: acc) s4 p4) as [[]|[[? ?] ?]];
      simpl in *; try exact I; try contradiction; lia.
Qed.

Lemma raise_decode_error_type (depth : nat) (doc msg : pystr) (pos : nat) :
  exc_type (raise_decode_error depth doc msg pos) = JSONDecodeError
  \/ exc_type (raise_decode_error depth doc msg pos) = RecursionError.
Proof.
  unfold raise_decode_error, decode_error.
  destruct (line_column _ _ _).
  destruct depth as [|[|[|depth]]]; simpl; auto.
Qed.

(** The fuel of [loads] is never used up: the decoder returns a value
    or raises [JSONDecodeError], or, at a limit of the interpreter,
    [RecursionError] or [ValueError]. *)
Lemma loads_total (lim : limits) (s : pystr) :
  (exists v, loads lim s = Ok v)
  \/ (exists e, loads lim s = Raise e
                /\ (exc_type e = JSONDecodeError
                    \/ exc_type e = RecursionError
                    \/ exc_type e = ValueError)).
Proof.
  unfold loads. destruct (startswith s [65279%N]).
  { right. eexists. split; [reflexivity|]. left. unfold decode_error.
    destruct (line_column _ _ _). reflexivity. }
  pose proof (skip_whitespace_length s 0) as W.
  destruct (skip_whitespace s 0) as [s1 p1]. simpl in W.
  pose proof (proj1 (scan_fuel lim (2 * List.length s + 2))
                (max_nesting lim) s1 p1 ltac:(lia)) as V.
  destruct (scan_once lim _ _ s1 p1) as [[msg pos|pos|context|digits|]|[[v s2] p2]];
    [| | | | contradiction |].
  - right. eexists. split; [reflexivity|]. left. unfold decode_error.
    destruct (line_column _ _ _). reflexivity.
  - right. eexists. split; [reflexivity|].
    destruct (raise_decode_error_type (1 + max_nesting lim) s
                (lit "Expecting value") pos); auto.
  - right. eexists. split; [reflexivity|]. right. left. reflexivity.
  - right. eexists. split; [reflexivity|]. right. right. reflexivity.
  - destruct (skip_whitespace s2 p2) as [[|c s3] p3].
    + left. eauto.
    + right. eexists. split; [reflexivity|].
      destruct (raise_decode_error_type (2 + max_nesting lim) s
                  (lit "Extra data") p3); auto.
Qed.

End DecoderFuel.

(** ** The event log *)

Ltac run :=
  unfold on_analyze, run_batch, render_results, process_file, parse_resume,
    analyze_with_gemini, analyze_body, analyze_handlers,
    call_generate_content, call_fitz_open, call_docx_Document,
    try_except, try_binding, bind, ret, raise, lift, emit in *.

Lemma model_calls_app (l1 l2 : log) :
  model_calls (l1 ++ l2) = model_calls l1 ++ model_calls l2.
Proof. apply filter_app. Qed.

Lemma extractions_app (l1 l2 : log) :
  extractions (l1 ++ l2) = extractions l1 ++ extractions l2.
Proof. apply filter_app. Qed.

Lemma rendered_titles_app (l1 l2 : log) :
  rendered_titles (l1 ++ l2) = rendered_titles l1 ++ rendered_titles l2.
Proof. apply flat_map_app. Qed.

(** ** Extraction *)

Section Extraction.
Context {ext : Externals}.

(** Extraction never talks to the model. *)
Lemma parse_resume_no_model_call (file_bytes : bytes) (filename : pystr) (l : log) :
  model_calls (snd (parse_resume file_bytes filename l)) = model_calls l.
Proof.
  run.
  destruct (endswith filename (lit ".pdf")); [|destruct (endswith filename (lit ".docx"))].
  - destruct (fitz_open file_bytes) as [doc|e]; [destruct (collect doc) as [pages|e]|];
      simpl; try destruct (is_Exception e); simpl;
      rewrite ?model_calls_app; simpl; now rewrite ?app_nil_r.
  - destruct (docx_Document file_bytes) as [doc|e]; [destruct (collect doc) as [pages|e]|];
      simpl; try destruct (is_Exception e); simpl;
      rewrite ?model_calls_app; simpl; now rewrite ?app_nil_r.
  - reflexivity.
Qed.

Lemma collect_map_Ok {A : Type} (l : list A) : collect (map Ok l) = Ok l.
Proof. induction l as [|a l IH]; simpl; [reflexivity | now rewrite IH]. Qed.

Lemma docx_name_is_not_pdf (before : pystr) :
  endswith (before ++ lit ".docx") (lit ".pdf") = false.
Proof. unfold endswith. rewrite rev_app_distr. reflexivity. Qed.

(** C7. For every content and every filename that ends neither in
    [.pdf] nor in [.docx] (the comparison is on code points, hence
    case-sensitive), [parse_resume] returns the empty string: it raises
    nothing, reports nothing and opens no document, so the log is left
    as it was. *)
Theorem parse_resume_unrecognized_extension
    (file_bytes : bytes) (filename : pystr) (l : log) :
  (~ exists before, filename = before ++ lit ".pdf") ->
  (~ exists before, filename = before ++ lit ".docx") ->
  parse_resume file_bytes filename l = (Ok [], l).
Proof.
  intros Hpdf Hdocx. run.
  now rewrite (endswith_false _ _ Hpdf), (endswith_false _ _ Hdocx).
Qed.

(** [sep.join(parts)] is the first part followed by every other part
    with the separator before it. *)
Lemma join_separates (sep : pystr) (parts : list pystr) :
  join sep parts
  = match parts with
    | [] => []
    | first :: others => first ++ concat (map (fun part => sep ++ part) others)
    end.
Proof.
  destruct parts as [|first others]; [reflexivity|].
  revert first. induction others as [|second others IH]; intros first.
  - simpl. now rewrite app_nil_r.
  - change (join sep (first :: second :: others))
      with (first ++ sep ++ join sep (second :: others)).
    rewrite IH. simpl. now rewrite <- app_assoc.
Qed.

(** C8. For a well-formed document (the library opens it and every
    page or paragraph yields its text), [parse_resume] returns, for a
    name ending in [.pdf], the page texts concatenated in page order with
    nothing between them, and for a name ending in [.docx], the paragraph
    texts in document order joined by newline characters: nothing for
    a document without paragraphs, otherwise the first paragraph
    followed by every other paragraph with one line feed (code point
    10) before it. *)
Theorem parse_resume_well_formed
    (file_bytes : bytes) (before : pystr) (texts : list pystr) (l : log) :
  (fitz_open file_bytes = Ok (map Ok texts) ->
   parse_resume file_bytes (before ++ lit ".pdf") l
   = (Ok (concat texts), l ++ [fitz_opening file_bytes]))
  /\
  (docx_Document file_bytes = Ok (map Ok texts) ->
   parse_resume file_bytes (before ++ lit ".docx") l
   = (Ok match texts with
         | [] => []
         | first :: others =>
             first ++ concat (map (fun paragraph => 10%N :: paragraph) others)
         end,
      l ++ [docx_opening file_bytes])).
Proof.
  split; intros Hopen; run.
  - assert (E : endswith (before ++ lit ".pdf") (lit ".pdf") = true)
      by (apply endswith_spec; now exists before).
    rewrite E, Hopen, collect_map_Ok, join_empty_sep. reflexivity.
  - assert (E : endswith (before ++ lit ".docx") (lit ".docx") = true)
      by (apply endswith_spec; now exists before).
    rewrite docx_name_is_not_pdf, E, Hopen, collect_map_Ok, join_separates.
    reflexivity.
Qed.

End Extraction.

(** ** The batch *)

Section Batch.
Context {ext : Externals}.

(** C6. When the extraction of an uploaded resume yields the empty
    string, the turn of the loop for that file sends nothing to the model
    and returns the accumulated results as they were: no scored record
    and no fallback record is added. *)
Theorem process_file_skips_empty_text
    (jd_input : pystr) (total i : nat) (file : UploadedFile)
    (all_analyses : list CandidateAnalysis) (l l1 : log) :
  parse_resume (content file) (name file)
    (l ++ [st_write (lit "Processing " ++ name file ++ lit " ...")]) = (Ok [], l1) ->
  process_file jd_input total i file all_analyses l
  = (Ok all_analyses, l1 ++ [progress_bar_progress (i + 1) total])
  /\ model_calls (l1 ++ [progress_bar_progress (i + 1) total]) = model_calls l.
Proof.
  intros H. split.
  - unfold process_file, bind, emit, ret. rewrite H. reflexivity.
  - pose proof (parse_resume_no_model_call (content file) (name file)
                  (l ++ [st_write (lit "Processing " ++ name file ++ lit " ...")])) as C.
    rewrite H in C. simpl in C.
    rewrite !model_calls_app in *. simpl in *. now rewrite !app_nil_r in *.
Qed.

(** A job description of white space only is refused like an empty one. *)
Lemma on_analyze_blank_job_description
    (jd_input : pystr) (resume_files : list UploadedFile) (l : log) :
  strip jd_input = [] ->
  on_analyze jd_input resume_files l
  = (Ok tt, l ++ [st_error (lit "Please paste a job description.")]).
Proof. intros H. unfold on_analyze. rewrite H. reflexivity. Qed.

(** C9. When the job description is empty or no file is uploaded, the
    handler only shows one validation message: nothing is extracted,
    nothing is sent to the model, and nothing is rendered. *)
Theorem on_analyze_rejects_missing_input
    (jd_input : pystr) (resume_files : list UploadedFile) (l : log) :
  jd_input = [] \/ resume_files = [] ->
  exists msg,
    on_analyze jd_input resume_files l = (Ok tt, l ++ [st_error msg])
    /\ (msg = lit "Please paste a job description."
        \/ msg = lit "Please upload at least one resume.")
    /\ model_calls (l ++ [st_error msg]) = model_calls l
    /\ extractions (l ++ [st_error msg]) = extractions l
    /\ rendered_titles (l ++ [st_error msg]) = rendered_titles l.
Proof.
  intros H.
  assert (F : forall msg,
             model_calls (l ++ [st_error msg]) = model_calls l
             /\ extractions (l ++ [st_error msg]) = extractions l
             /\ rendered_titles (l ++ [st_error msg]) = rendered_titles l).
  { intros msg. rewrite model_calls_app, extractions_app, rendered_titles_app.
    simpl. now rewrite !app_nil_r. }
  destruct (truthy (strip jd_input)) eqn:J.
  - destruct H as [-> | ->]; [discriminate|].
    exists (lit "Please upload at least one resume.").
    split; [|split; [now right | apply F]].
    unfold on_analyze. rewrite J. reflexivity.
  - exists (lit "Please paste a job description.").
    split; [|split; [now left | apply F]].
    unfold on_analyze. rewrite J. reflexivity.
Qed.

End Batch.

(** ** Ranking *)

Section StableSort.
Variable A : Type.
Variable key : A -> Z.

Local Abbreviation descending := (descending key).
Local Abbreviation with_key := (with_key key).

Lemma insert_desc_perm (x : A) (l : list A) :
  Permutation (x :: l) (insert_desc key x l).
Proof.
  induction l as [|y l IH]; simpl.
  - reflexivity.
  - destruct (key x <? key y)%Z.
    + rewrite perm_swap. now apply perm_skip.
    + reflexivity.
Qed.

Lemma sorted_reverse_perm (l : list A) : Permutation l (sorted_reverse key l).
Proof.
  induction l as [|x l IH]; simpl.
  - constructor.
  - rewrite <- insert_desc_perm. now apply perm_skip.
Qed.

Lemma insert_desc_descending (x : A) (l : list A) :
  descending l -> descending (insert_desc key x l).
Proof.
  unfold descending. induction 1 as [|y l Hl IH Hy]; simpl.
  - repeat constructor.
  - destruct (key x <? key y)%Z eqn:E.
    + apply Z.ltb_lt in E. constructor; [exact IH|].
      rewrite Forall_forall in *. intros b Hb.
      apply (Permutation_in _ (Permutation_sym (insert_desc_perm x l))) in Hb.
      destruct Hb as [<- | Hb]; [lia | now apply Hy].
    + apply Z.ltb_ge in E. constructor; [now constructor|].
      constructor; [exact E|].
      rewrite Forall_forall in *. intros b Hb. specialize (Hy b Hb). lia.
Qed.

Lemma sorted_reverse_descending (l : list A) : descending (sorted_reverse key l).
Proof.
  induction l as [|x l IH]; simpl.
  - constructor.
  - now apply insert_desc_descending.
Qed.

Lemma insert_desc_with_key (k : Z) (x : A) (l : list A) :
  with_key k (insert_desc key x l) = with_key k (x :: l).
Proof.
  unfold with_key. induction l as [|y l IH]; simpl; [reflexivity|].
  destruct (key x <? key y)%Z eqn:E; simpl; [|reflexivity].
  rewrite IH. simpl.
  destruct (key x =? k)%Z eqn:Ex, (key y =? k)%Z eqn:Ey; try reflexivity.
  apply Z.ltb_lt in E. apply Z.eqb_eq in Ex, Ey. lia.
Qed.

(** Stability: among the elements of one key the order is the input's. *)
Lemma sorted_reverse_stable (k : Z) (l : list A) :
  with_key k (sorted_reverse key l) = with_key k l.
Proof.
  induction l as [|x l IH]; simpl; [reflexivity|].
  rewrite insert_desc_with_key. unfold with_key in *. simpl. now rewrite IH.
Qed.

Lemma with_key_In (k : Z) (x : A) (l : list A) :
  In x (with_key k l) <-> In x l /\ key x = k.
Proof. unfold with_key. rewrite filter_In, Z.eqb_eq. reflexivity. Qed.

(** A descending list is determined by its elements of each key: the
    stable descending sort of a list is unique, whatever algorithm
    computes it. *)
Lemma descending_stable_unique (l1 l2 : list A) :
  descending l1 -> descending l2 ->
  (forall k, with_key k l1 = with_key k l2) ->
  l1 = l2.
Proof.
  unfold descending. intros H1. revert l2.
  induction H1 as [|x l1 Hs1 IH Hx]; intros l2 H2 E.
  - destruct l2 as [|y l2]; [reflexivity|].
    specialize (E (key y)). unfold with_key in E. simpl in E.
    rewrite Z.eqb_refl in E. discriminate.
  - destruct H2 as [|y l2 Hs2 Hy].
    + specialize (E (key x)). unfold with_key in E. simpl in E.
      rewrite Z.eqb_refl in E. discriminate.
    + assert (Kxy : (key x <= key y)%Z).
      { assert (I : In x (with_key (key x) (y :: l2))).
        { rewrite <- E. unfold with_key. simpl. rewrite Z.eqb_refl. now left. }
        apply with_key_In in I as [[<- | I] _]; [lia|].
        rewrite Forall_forall in Hy. now apply Hy. }
      assert (Kyx : (key y <= key x)%Z).
      { assert (I : In y (with_key (key y) (x :: l1))).
        { rewrite E. unfold with_key. simpl. rewrite Z.eqb_refl. now left. }
        apply with_key_In in I as [[<- | I] _]; [lia|].
        rewrite Forall_forall in Hx. now apply Hx. }
      assert (Exy : x = y).
      { specialize (E (key x)). unfold with_key in E. simpl in E.
        rewrite Z.eqb_refl in E.
        replace (key y =? key x)%Z with true in E by (symmetry; apply Z.eqb_eq; lia).
        now injection E. }
      subst y. f_equal. apply IH; [exact Hs2|].
      intros k. specialize (E k). unfold with_key in *. simpl in E.
      destruct (key x =? k)%Z; [now injection E | exact E].
Qed.

End StableSort.

Section Ranking.

Lemma render_candidate_events (c : CandidateAnalysis) (l : log) :
  exists evs, render_candidate c l = (Ok tt, l ++ evs)
              /\ rendered_titles evs = [expander_title c].
Proof.
  unfold render_candidate, bind, emit.
  destruct (is_recommended c); simpl; rewrite <- !app_assoc; simpl;
    eexists; (split; [reflexivity|]); reflexivity.
Qed.

Lemma render_all_titles (candidates : list CandidateAnalysis) (l : log) :
  fst (render_all candidates l) = Ok tt
  /\ rendered_titles (snd (render_all candidates l))
     = rendered_titles l ++ map expander_title candidates.
Proof.
  revert l. induction candidates as [|c rest IH]; intros l; simpl.
  - split; [reflexivity | now rewrite app_nil_r].
  - destruct (render_candidate_events c l) as (evs & E & T).
    unfold bind. rewrite E.
    destruct (IH (l ++ evs)) as [I1 I2]. split; [exact I1|].
    rewrite I2, rendered_titles_app, T, <- app_assoc. reflexivity.
Qed.

(** C5. The ranking is the accumulated list sorted by score, highest
    first, by a stable sort: it has the same records, scores never
    increase along it, and the records of any one score keep the order in
    which they were accumulated.  The expanders are rendered in exactly
    that order. *)
Theorem ranked_candidates_stable_descending
    (all_analyses : list CandidateAnalysis) (l : log) :
  Permutation all_analyses (ranked_candidates all_analyses)
  /\ descending score (ranked_candidates all_analyses)
  /\ (forall k, with_key score k (ranked_candidates all_analyses)
                = with_key score k all_analyses)
  /\ fst (render_results all_analyses l) = Ok tt
  /\ rendered_titles (snd (render_results all_analyses l))
     = rendered_titles l ++ map expander_title (ranked_candidates all_analyses).
Proof.
  unfold ranked_candidates.
  split; [apply sorted_reverse_perm|].
  split; [apply sorted_reverse_descending|].
  split; [intros k; apply sorted_reverse_stable|].
  unfold render_results. destruct all_analyses as [|c rest].
  - simpl. split; [reflexivity | now rewrite app_nil_r].
  - cbn [truthy]. unfold bind, emit.
    destruct (render_all_titles (ranked_candidates (c :: rest))
                (l ++ [st_subheader (lit "Analysis Results")])) as [I1 I2].
    unfold ranked_candidates in *. split; [exact I1|].
    rewrite I2, rendered_titles_app. simpl. now rewrite app_nil_r.
Qed.

End Ranking.

(** ** Dictionaries *)

Section DictFacts.

Lemma dict_get_set_same (d : dict) (k : pystr) (v : value) :
  dict_get (dict_set d k v) k = Some v.
Proof.
  induction d as [|[k' v'] d IH]; simpl.
  - now rewrite str_eqb_refl.
  - destruct (str_eqb k' k) eqn:E; simpl; rewrite E; [reflexivity | exact IH].
Qed.

Lemma dict_get_set_other (d : dict) (k k' : pystr) (v : value) :
  k <> k' -> dict_get (dict_set d k v) k' = dict_get d k'.
Proof.
  intros N. induction d as [|[k1 v1] d IH]; simpl.
  - apply str_eqb_neq in N. now rewrite N.
  - destruct (str_eqb k1 k) eqn:E; simpl.
    + apply str_eqb_eq in E. subst k1. apply str_eqb_neq in N. now rewrite N.
    + destruct (str_eqb k1 k'); [reflexivity | exact IH].
Qed.

End DictFacts.

(** ** The constructor *)

Section Construction.
Context {ext : Externals}.

Lemma normalize_reasoning_other (d : dict) (k : pystr) :
  k <> lit "reasoning" ->
  dict_get (normalize_reasoning d) k = dict_get d k.
Proof.
  intros N. unfold normalize_reasoning.
  destruct (dict_get d (lit "reasoning")) as [[| | | | | |rd]|]; try reflexivity.
  apply dict_get_set_other. congruence.
Qed.

Lemma normalize_reasoning_text (d : dict) (v : value) :
  dict_get d (lit "reasoning") = Some v ->
  (exists s, v = VStr s) \/ (exists rd, v = VDict rd) ->
  exists s, dict_get (normalize_reasoning d) (lit "reasoning") = Some (VStr s).
Proof.
  intros G [[s ->] | [rd ->]]; unfold normalize_reasoning; rewrite G.
  - now exists s.
  - eexists. apply dict_get_set_same.
Qed.

(** A well-typed set of keyword arguments is accepted as it is. *)
Lemma CandidateAnalysis_new_typed
    (kwargs : dict) (n s r : pystr) (z : Z) (b : bool) :
  dict_get kwargs (lit "candidate_name") = Some (VStr n) ->
  dict_get kwargs (lit "score") = Some (VInt z) ->
  (0 <= z <= 100)%Z ->
  dict_get kwargs (lit "summary") = Some (VStr s) ->
  dict_get kwargs (lit "reasoning") = Some (VStr r) ->
  dict_get kwargs (lit "is_recommended") = Some (VBool b) ->
  CandidateAnalysis_new kwargs
  = Ok {| candidate_name := n; score := z; summary := s; reasoning := r;
          is_recommended := b |}.
Proof.
  intros Hn Hz Rz Hs Hr Hb.
  unfold CandidateAnalysis_new, validate_str, validate_score, validate_bool.
  rewrite Hn, Hz, Hs, Hr, Hb.
  rewrite !coerce_str_str, coerce_int_int, coerce_bool_bool.
  destruct (z <? 0)%Z eqn:E1; [apply Z.ltb_lt in E1; lia|].
  destruct (100 <? z)%Z eqn:E2; [apply Z.ltb_lt in E2; lia|].
  reflexivity.
Qed.

Lemma validate_score_in_range (kwargs : dict) (z : Z) :
  validate_score kwargs = inr z -> (0 <= z <= 100)%Z.
Proof.
  unfold validate_score.
  destruct (dict_get kwargs (lit "score")) as [v|]; [|discriminate].
  destruct (coerce_int v) as [z'|]; [|discriminate].
  destruct (z' <? 0)%Z eqn:E1; [discriminate|].
  destruct (100 <? z')%Z eqn:E2; [discriminate|].
  intros H. injection H as <-. apply Z.ltb_ge in E1, E2. lia.
Qed.

(** Whatever the constructor returns has its score between 0 and 100. *)
Lemma CandidateAnalysis_new_in_range (kwargs : dict) (c : CandidateAnalysis) :
  CandidateAnalysis_new kwargs = Ok c -> score_in_range c.
Proof.
  unfold CandidateAnalysis_new, score_in_range.
  destruct (validate_str kwargs (lit "candidate_name")); [discriminate|].
  destruct (validate_score kwargs) as [|z] eqn:Hz; [discriminate|].
  destruct (validate_str kwargs (lit "summary")); [discriminate|].
  destruct (validate_str kwargs (lit "reasoning")); [discriminate|].
  destruct (validate_bool kwargs (lit "is_recommended")); [discriminate|].
  intros H. injection H as <-. simpl. exact (validate_score_in_range kwargs z Hz).
Qed.

(** The constructor raises nothing but a [ValidationError]. *)
Lemma CandidateAnalysis_new_raises (kwargs : dict) (e : exc) :
  CandidateAnalysis_new kwargs = Raise e -> exc_type e = ValidationError.
Proof.
  unfold CandidateAnalysis_new.
  destruct (validate_str kwargs (lit "candidate_name")),
    (validate_score kwargs), (validate_str kwargs (lit "summary")),
    (validate_str kwargs (lit "reasoning")),
    (validate_bool kwargs (lit "is_recommended"));
    intros H; try discriminate; injection H as <-; reflexivity.
Qed.

(** What it raises: the validation error of the problems found, of
    which there is at least one. *)
Lemma CandidateAnalysis_new_error (kwargs : dict) (e : exc) :
  CandidateAnalysis_new kwargs = Raise e ->
  e = mk_exc ValidationError (validation_error_str kwargs (field_problems kwargs))
  /\ field_problems kwargs <> [].
Proof.
  unfold CandidateAnalysis_new, field_problems.
  destruct (validate_str kwargs (lit "candidate_name")),
    (validate_score kwargs), (validate_str kwargs (lit "summary")),
    (validate_str kwargs (lit "reasoning")),
    (validate_bool kwargs (lit "is_recommended"));
    intros H; try discriminate; injection H as <-;
    (split; [reflexivity | discriminate]).
Qed.

(** The constructor raises exactly when a constraint is violated. *)
Lemma CandidateAnalysis_new_violation (kwargs : dict) :
  violates kwargs <-> exists e, CandidateAnalysis_new kwargs = Raise e.
Proof.
  split.
  - intros V.
    assert (S : forall f v, dict_get kwargs f = Some v -> coerce_str v = None ->
                            exists p, validate_str kwargs f = inl p).
    { intros f v G C. unfold validate_str. rewrite G, C. eauto. }
    assert (M : forall f, dict_get kwargs f = None ->
                          (exists p, validate_str kwargs f = inl p)
                          /\ (exists p, validate_bool kwargs f = inl p)).
    { intros f G. unfold validate_str, validate_bool. rewrite G. eauto. }
    assert (R : (exists p, validate_str kwargs (lit "candidate_name") = inl p)
                \/ (exists p, validate_score kwargs = inl p)
                \/ (exists p, validate_str kwargs (lit "summary") = inl p)
                \/ (exists p, validate_str kwargs (lit "reasoning") = inl p)
                \/ (exists p, validate_bool kwargs (lit "is_recommended") = inl p)).
    { destruct V as [f I G | f v I G C | v G C | v z G C O | v G C].
      - simpl in I.
        destruct I as [<- | [<- | [<- | [<- | [<- | []]]]]].
        + left. apply M, G.
        + right; left. unfold validate_score. rewrite G. eauto.
        + right; right; left. apply M, G.
        + right; right; right; left. apply M, G.
        + right; right; right; right. apply M, G.
      - simpl in I. destruct I as [<- | [<- | [<- | []]]]; eauto 6.
      - right; left. unfold validate_score. rewrite G, C. eauto.
      - right; left. unfold validate_score. rewrite G, C.
        destruct (z <? 0)%Z eqn:E1; [eauto|].
        destruct (100 <? z)%Z eqn:E2; [eauto|].
        apply Z.ltb_ge in E1, E2. lia.
      - right; right; right; right. unfold validate_bool. rewrite G, C. eauto. }
    unfold CandidateAnalysis_new.
    destruct (validate_str kwargs (lit "candidate_name")),
      (validate_score kwargs), (validate_str kwargs (lit "summary")),
      (validate_str kwargs (lit "reasoning")),
      (validate_bool kwargs (lit "is_recommended")); eauto.
    destruct R as [[? ?] | [[? ?] | [[? ?] | [[? ?] | [? ?]]]]]; discriminate.
  - intros [e H]. unfold CandidateAnalysis_new in H.
    destruct (validate_str kwargs (lit "candidate_name")) as [q1|x1] eqn:V1.
    { unfold validate_str in V1.
      destruct (dict_get kwargs (lit "candidate_name")) as [v|] eqn:G.
      - destruct (coerce_str v) eqn:C; [discriminate|].
        apply (text_mistyped kwargs (lit "candidate_name") v); simpl; auto.
      - apply (field_missing kwargs (lit "candidate_name")); simpl; auto. }
    destruct (validate_score kwargs) as [q2|x2] eqn:V2.
    { unfold validate_score in V2.
      destruct (dict_get kwargs (lit "score")) as [v|] eqn:G.
      - destruct (coerce_int v) as [z|] eqn:C.
        + apply (score_out_of_range kwargs v z G C).
          destruct (z <? 0)%Z eqn:E1; [apply Z.ltb_lt in E1; lia|].
          destruct (100 <? z)%Z eqn:E2; [apply Z.ltb_lt in E2; lia|].
          discriminate.
        + apply (score_mistyped kwargs v G C).
      - apply (field_missing kwargs (lit "score")); simpl; auto. }
    destruct (validate_str kwargs (lit "summary")) as [q3|x3] eqn:V3.
    { unfold validate_str in V3.
      destruct (dict_get kwargs (lit "summary")) as [v|] eqn:G.
      - destruct (coerce_str v) eqn:C; [discriminate|].
        apply (text_mistyped kwargs (lit "summary") v); simpl; auto.
      - apply (field_missing kwargs (lit "summary")); simpl; auto. }
    destruct (validate_str kwargs (lit "reasoning")) as [q4|x4] eqn:V4.
    { unfold validate_str in V4.
      destruct (dict_get kwargs (lit "reasoning")) as [v|] eqn:G.
      - destruct (coerce_str v) eqn:C; [discriminate|].
        apply (text_mistyped kwargs (lit "reasoning") v); simpl; auto.
      - apply (field_missing kwargs (lit "reasoning")); simpl; auto 6. }
    destruct (validate_bool kwargs (lit "is_recommended")) as [q5|x5] eqn:V5.
    { unfold validate_bool in V5.
      destruct (dict_get kwargs (lit "is_recommended")) as [v|] eqn:G.
      - destruct (coerce_bool v) eqn:C; [discriminate|].
        apply (flag_mistyped kwargs v G C).
      - apply (field_missing kwargs (lit "is_recommended")); simpl; auto 7. }
    discriminate.
Qed.

End Construction.

(** ** The analysis step *)

Section Analysis.
Context {ext : Externals}.

Lemma format_error_fallback_ok (raw : pystr) :
  format_error_fallback raw
  = Ok {| candidate_name := lit "Unknown/Error"; score := 0;
          summary := lit "Analysis failed due to response format error !";
          reasoning := lit "Failed to parse model output, raw response : " ++ raw;
          is_recommended := false |}.
Proof.
  unfold format_error_fallback.
  apply CandidateAnalysis_new_typed; try reflexivity; lia.
Qed.

Lemma unexpected_error_fallback_ok (e : exc) :
  unexpected_error_fallback e
  = Ok {| candidate_name := lit "Unknown/Error"; score := 0;
          summary := lit "Analysis failed !";
          reasoning := lit "An unexpected error occurred : " ++ exc_str e;
          is_recommended := false |}.
Proof.
  unfold unexpected_error_fallback.
  apply CandidateAnalysis_new_typed; try reflexivity; lia.
Qed.

(** Once the model has answered, the step is its body under the handlers. *)
Lemma analyze_with_gemini_answered
    (job_description resume_text : pystr) (l : log)
    (response : GenerateContentResponse) :
  generate_content (List.length (model_calls l))
    (PROMPT_TEMPLATE_format job_description resume_text) = Ok response ->
  analyze_with_gemini job_description resume_text l
  = let l1 := l ++ [genai_generate_content
                      (PROMPT_TEMPLATE_format job_description resume_text)] in
    match analyze_body response l1 with
    | (Ok c, l2) => (Ok c, l2)
    | (Raise e, l2) => analyze_handlers (Some response) e l2
    end.
Proof.
  intros H. unfold analyze_with_gemini, try_binding, call_generate_content.
  now rewrite H.
Qed.

(** The body leaves the log alone. *)
Lemma analyze_body_log (response : GenerateContentResponse) (l : log) :
  snd (analyze_body response l) = l.
Proof.
  unfold analyze_body, bind, lift, raise.
  destruct (text response) as [raw|e]; [|reflexivity].
  destruct (json_loads (response_text raw)) as [[| | | | | |d]|e]; try reflexivity.
Qed.

(** A response that conforms to the schema is accepted by the body. *)
Lemma analyze_body_conforming
    (response : GenerateContentResponse) (l : log) (raw : pystr) (d : dict)
    (n s : pystr) (v : value) (z : Z) (b : bool) :
  text response = Ok raw ->
  json_loads (response_text raw) = Ok (VDict d) ->
  dict_get d (lit "candidate_name") = Some (VStr n) ->
  dict_get d (lit "score") = Some (VInt z) ->
  (0 <= z <= 100)%Z ->
  dict_get d (lit "summary") = Some (VStr s) ->
  dict_get d (lit "reasoning") = Some v ->
  (exists r, v = VStr r) \/ (exists rd, v = VDict rd) ->
  dict_get d (lit "is_recommended") = Some (VBool b) ->
  exists r,
    analyze_body response l
    = (Ok {| candidate_name := n; score := z; summary := s; reasoning := r;
             is_recommended := b |}, l).
Proof.
  intros Ht Hj Hn Hz Rz Hs Hr Tr Hb.
  destruct (normalize_reasoning_text d v Hr Tr) as [r Gr].
  exists r. unfold analyze_body, bind, lift. rewrite Ht, Hj.
  rewrite (CandidateAnalysis_new_typed (normalize_reasoning d) n s r z b);
    try reflexivity; try assumption;
    rewrite normalize_reasoning_other; try assumption; discriminate.
Qed.


(** C4, as the code has it.  When the text prepared from the answer
    (trimmed, the fences deleted) decodes to an object that holds all
    the required fields at their types, with an integer score between 0
    and 100 and any boolean [is_recommended], the answer is accepted:
    the record returned has the score, the flag, the name and the
    summary of that object, and its reasoning when that is a string,
    whatever they are (nothing compares the flag with the score, so
    [true] with 50 passes), and no diagnostic is shown.  The values are
    those decoded from the prepared text, not those of the answer as it
    was sent. *)
Theorem analyze_accepts_conforming_response
    (job_description resume_text : pystr) (l : log)
    (response : GenerateContentResponse) (raw : pystr) (d : dict)
    (n s : pystr) (v : value) (z : Z) (b : bool) :
  generate_content (List.length (model_calls l))
    (PROMPT_TEMPLATE_format job_description resume_text) = Ok response ->
  text response = Ok raw ->
  json_loads (response_text raw) = Ok (VDict d) ->
  dict_get d (lit "candidate_name") = Some (VStr n) ->
  dict_get d (lit "score") = Some (VInt z) ->
  (0 <= z <= 100)%Z ->
  dict_get d (lit "summary") = Some (VStr s) ->
  dict_get d (lit "reasoning") = Some v ->
  (exists r, v = VStr r) \/ (exists rd, v = VDict rd) ->
  dict_get d (lit "is_recommended") = Some (VBool b) ->
  exists c,
    analyze_with_gemini job_description resume_text l
    = (Ok c, l ++ [genai_generate_content
                     (PROMPT_TEMPLATE_format job_description resume_text)])
    /\ score c = z
    /\ is_recommended c = b
    /\ candidate_name c = n
    /\ summary c = s
    /\ (forall r, v = VStr r -> reasoning c = r).
Proof.
  intros Hg Ht Hj Hn Hz Rz Hs Hr Tr Hb.
  rewrite (analyze_with_gemini_answered _ _ _ _ Hg). cbv zeta.
  destruct Tr as [[r ->] | [rd ->]].
  - unfold analyze_body, bind, lift. rewrite Ht, Hj.
    assert (E : normalize_reasoning d = d)
      by (unfold normalize_reasoning; now rewrite Hr).
    rewrite E, (CandidateAnalysis_new_typed d n s r z b) by assumption.
    eexists. split; [reflexivity|]. repeat split.
    intros r' Er. injection Er as <-. reflexivity.
  - destruct (analyze_body_conforming response
                (l ++ [genai_generate_content
                         (PROMPT_TEMPLATE_format job_description resume_text)])
                raw d n s (VDict rd) z b Ht Hj Hn Hz Rz Hs Hr
                (or_intror (ex_intro _ rd eq_refl)) Hb) as [r ->].
    eexists. split; [reflexivity|]. repeat split. discriminate.
Qed.

(** C3, as the code has it.  When the text prepared from the answer
    (trimmed, the fences deleted) decodes to an object that, once a
    structured reasoning is rewritten as text, violates a constraint
    enforced at construction (a required field is missing or is not read
    at its type, or the score is outside 0 to 100), the constructor
    raises the validation error of the problems found and the analysis
    step raises nothing: it shows the one diagnostic of the second
    handler, which ends with the text of that error, and returns the
    fallback record of the second handler, named [Unknown/Error], with
    score 0, not recommended, whose reasoning ends with the text of the
    error (and not with the raw answer).  No constraint asks a text
    field to be non-empty: an answer whose texts are empty is accepted as
    it is. *)
Theorem analyze_constraint_violation_fallback
    (job_description resume_text : pystr) (l : log)
    (response : GenerateContentResponse) (raw : pystr) (d : dict) :
  generate_content (List.length (model_calls l))
    (PROMPT_TEMPLATE_format job_description resume_text) = Ok response ->
  text response = Ok raw ->
  json_loads (response_text raw) = Ok (VDict d) ->
  (violates (normalize_reasoning d) ->
   exists e,
     CandidateAnalysis_new (normalize_reasoning d) = Raise e
     /\ e = mk_exc ValidationError
              (validation_error_str (normalize_reasoning d)
                 (field_problems (normalize_reasoning d)))
     /\ field_problems (normalize_reasoning d) <> []
     /\ analyze_with_gemini job_description resume_text l
        = (Ok {| candidate_name := lit "Unknown/Error"; score := 0;
                 summary := lit "Analysis failed !";
                 reasoning := lit "An unexpected error occurred : " ++ exc_str e;
                 is_recommended := false |},
           l ++ [genai_generate_content
                   (PROMPT_TEMPLATE_format job_description resume_text);
                 st_error (lit "An unexpected error occurred during analysis : "
                           ++ exc_str e)]))
  /\
  (forall z b,
     dict_get d (lit "candidate_name") = Some (VStr []) ->
     dict_get d (lit "score") = Some (VInt z) ->
     (0 <= z <= 100)%Z ->
     dict_get d (lit "summary") = Some (VStr []) ->
     dict_get d (lit "reasoning") = Some (VStr []) ->
     dict_get d (lit "is_recommended") = Some (VBool b) ->
     analyze_with_gemini job_description resume_text l
     = (Ok {| candidate_name := []; score := z; summary := [];
              reasoning := []; is_recommended := b |},
        l ++ [genai_generate_content
                (PROMPT_TEMPLATE_format job_description resume_text)])).
Proof.
  intros Hg Ht Hj. split.
  - intros V. apply CandidateAnalysis_new_violation in V as [e He].
    pose proof (CandidateAnalysis_new_raises _ _ He) as Te.
    destruct (CandidateAnalysis_new_error _ _ He) as [Ee Pe].
    exists e. split; [exact He|]. split; [exact Ee|]. split; [exact Pe|].
    rewrite (analyze_with_gemini_answered _ _ _ _ Hg). cbv zeta.
    unfold analyze_body, bind, lift. rewrite Ht, Hj, He.
    unfold analyze_handlers, is_format_error, is_Exception. rewrite Te.
    unfold bind, emit, lift. rewrite unexpected_error_fallback_ok.
    rewrite <- app_assoc. reflexivity.
  - intros z b Hn Hz Rz Hs Hr Hb.
    rewrite (analyze_with_gemini_answered _ _ _ _ Hg). cbv zeta.
    unfold analyze_body, bind, lift. rewrite Ht, Hj.
    unfold normalize_reasoning. rewrite Hr.
    now rewrite (CandidateAnalysis_new_typed d [] [] [] z b).
Qed.

End Analysis.

(** ** Scores stay in range *)

Section ScoreRange.
Context {ext : Externals}.

Lemma analyze_handlers_in_range
    (response : option GenerateContentResponse) (e : exc) (l l' : log)
    (c : CandidateAnalysis) :
  analyze_handlers response e l = (Ok c, l') -> score_in_range c.
Proof.
  unfold analyze_handlers, bind, emit, lift, raise.
  destruct (is_format_error e).
  - destruct response as [r|]; [|discriminate].
    destruct (text r) as [raw|e']; [|discriminate].
    intros H. injection H as H _.
    exact (CandidateAnalysis_new_in_range _ _ H).
  - destruct (is_Exception e); [|discriminate].
    intros H. injection H as H _.
    exact (CandidateAnalysis_new_in_range _ _ H).
Qed.

Lemma analyze_body_in_range
    (response : GenerateContentResponse) (l l' : log) (c : CandidateAnalysis) :
  analyze_body response l = (Ok c, l') -> score_in_range c.
Proof.
  unfold analyze_body, bind, lift, raise.
  destruct (text response) as [raw|e]; [|discriminate].
  destruct (json_loads (response_text raw)) as [[| | | | | |d]|e]; try discriminate.
  intros H. injection H as H _.
  exact (CandidateAnalysis_new_in_range _ _ H).
Qed.

Lemma analyze_with_gemini_in_range
    (job_description resume_text : pystr) (l l' : log) (c : CandidateAnalysis) :
  analyze_with_gemini job_description resume_text l = (Ok c, l') ->
  score_in_range c.
Proof.
  unfold analyze_with_gemini, try_binding.
  destruct (call_generate_content _ l) as [[response|e] l1].
  - destruct (analyze_body response l1) as [[c'|e] l2] eqn:B.
    + intros H. injection H as <- _. exact (analyze_body_in_range _ _ _ _ B).
    + apply analyze_handlers_in_range.
  - apply analyze_handlers_in_range.
Qed.

Lemma process_file_in_range
    (jd_input : pystr) (total i : nat) (file : UploadedFile)
    (all_analyses all_analyses' : list CandidateAnalysis) (l l' : log) :
  process_file jd_input total i file all_analyses l = (Ok all_analyses', l') ->
  Forall score_in_range all_analyses -> Forall score_in_range all_analyses'.
Proof.
  unfold process_file, bind, emit, ret. intros H F.
  destruct (parse_resume _ _ _) as [[resume_text|e] l1]; [|discriminate].
  destruct (truthy resume_text).
  - destruct (analyze_with_gemini jd_input resume_text l1) as [[c|e] l2] eqn:G;
      [|discriminate].
    injection H as <- _. apply Forall_app. split; [exact F|].
    constructor; [|constructor]. exact (analyze_with_gemini_in_range _ _ _ _ _ G).
  - injection H as <- _. exact F.
Qed.

Lemma analyze_loop_in_range
    (jd_input : pystr) (total : nat) (files : list UploadedFile) :
  forall (i : nat) (all_analyses all_analyses' : list CandidateAnalysis) (l l' : log),
  analyze_loop jd_input total i files all_analyses l = (Ok all_analyses', l') ->
  Forall score_in_range all_analyses -> Forall score_in_range all_analyses'.
Proof.
  induction files as [|file rest IH]; intros i a a' l l' H F; simpl in H.
  - unfold ret in H. injection H as <- _. exact F.
  - unfold bind in H.
    destruct (process_file jd_input total i file a l) as [[a1|e] l1] eqn:P;
      [|discriminate].
    eapply IH; [exact H|]. exact (process_file_in_range _ _ _ _ _ _ _ _ P F).
Qed.

(** C10. Every record the analysis step returns, by whichever of its
    three paths, has its score between 0 and 100; hence so has every
    record accumulated by a batch and every record of the ranking. *)
Theorem score_always_in_range (jd_input : pystr) :
  (forall resume_text l l' c,
     analyze_with_gemini jd_input resume_text l = (Ok c, l') ->
     score_in_range c)
  /\
  (forall resume_files l l' all_analyses,
     run_batch jd_input resume_files l = (Ok all_analyses, l') ->
     Forall score_in_range all_analyses
     /\ Forall score_in_range (ranked_candidates all_analyses)).
Proof.
  split.
  - intros resume_text l l' c. apply analyze_with_gemini_in_range.
  - intros resume_files l l' all_analyses H.
    assert (F : Forall score_in_range all_analyses).
    { unfold run_batch, bind, emit, ret in H.
      destruct (analyze_loop _ _ _ _ _ _) as [[a|e] l1] eqn:L; [|discriminate].
      injection H as <- _.
      exact (analyze_loop_in_range _ _ _ _ _ _ _ _ L (Forall_nil _)). }
    split; [exact F|].
    unfold ranked_candidates.
    exact (Permutation_Forall (sorted_reverse_perm _ score all_analyses) F).
Qed.

(** The step returns a record whenever the model has answered with a
    readable text, provided the decoder raises nothing outside
    [Exception]. *)
Lemma analyze_with_gemini_returns
    (job_description resume_text : pystr) (l : log)
    (response : GenerateContentResponse) (raw : pystr) :
  generate_content (List.length (model_calls l))
    (PROMPT_TEMPLATE_format job_description resume_text) = Ok response ->
  text response = Ok raw ->
  (forall e, json_loads (response_text raw) = Raise e -> is_Exception e = true) ->
  exists c l', analyze_with_gemini job_description resume_text l = (Ok c, l').
Proof.
  intros Hg Ht Hx.
  rewrite (analyze_with_gemini_answered _ _ _ _ Hg). cbv zeta.
  destruct (analyze_body response _) as [[c|e] l2] eqn:B; [eauto|].
  assert (X : is_Exception e = true).
  { unfold analyze_body, bind, lift, raise in B. rewrite Ht in B.
    destruct (json_loads (response_text raw)) as [v|e'] eqn:J.
    - destruct v; try (injection B as <- _; reflexivity).
      destruct (CandidateAnalysis_new _) eqn:N; [discriminate|].
      injection B as <- _. unfold is_Exception.
      now rewrite (CandidateAnalysis_new_raises _ _ N).
    - injection B as <- _. now apply Hx. }
  unfold analyze_handlers, bind, emit, lift. rewrite X, Ht.
  rewrite format_error_fallback_ok, unexpected_error_fallback_ok.
  destruct (is_format_error e); eauto.
Qed.

End ScoreRange.

(** With the decoder of the standard library, the step returns a record
    whenever the model has answered with a readable text. *)
Lemma analyze_with_decoder_returns
    (s : Reference.Stubs) (job_description resume_text : pystr) (l : log)
    (response : GenerateContentResponse) (raw : pystr) :
  Reference.model s (List.length (model_calls l))
    (PROMPT_TEMPLATE_format job_description resume_text) = Ok response ->
  text response = Ok raw ->
  exists c l',
    analyze_with_gemini (ext := Reference.externals s) job_description resume_text l
    = (Ok c, l').
Proof.
  intros Hg Ht.
  apply (analyze_with_gemini_returns (ext := Reference.externals s)
           job_description resume_text l response raw Hg Ht).
  intros e He. simpl in He.
  destruct (loads_total (Reference.decoder_limits s) (response_text raw))
    as [[v Hv] | (e' & He' & T)]; [congruence|].
  assert (e = e') by congruence. subst e'.
  unfold is_Exception. destruct T as [T|[T|T]]; now rewrite T.
Qed.

(** ** The preparation of the answer *)

Section Preparation.

Lemma lstrip_spec (s : pystr) :
  exists before,
    s = before ++ lstrip s /\ forallb isspace before = true
    /\ (forall c rest, lstrip s = c :: rest -> isspace c = false).
Proof.
  induction s as [|c s (before & E & W & H)]; simpl.
  - exists []. repeat split. discriminate.
  - destruct (isspace c) eqn:C.
    + exists (c :: before). simpl. rewrite C, W. repeat split; [congruence | exact H].
    + exists []. repeat split. intros c' rest I. now injection I as <- _.
Qed.

Lemma forallb_rev {A : Type} (f : A -> bool) (l : list A) :
  forallb f (rev l) = forallb f l.
Proof.
  induction l as [|a l IH]; simpl; [reflexivity|].
  rewrite forallb_app, IH. simpl. rewrite andb_true_r. apply andb_comm.
Qed.

Lemma rstrip_spec (s : pystr) :
  exists after,
    s = rstrip s ++ after /\ forallb isspace after = true
    /\ (forall c front, rstrip s = front ++ [c] -> isspace c = false).
Proof.
  unfold rstrip. destruct (lstrip_spec (rev s)) as (before & E & W & H).
  exists (rev before). split; [|split].
  - rewrite <- rev_app_distr, <- E. now rewrite rev_involutive.
  - now rewrite forallb_rev.
  - intros c front I. apply (H c (rev front)).
    rewrite <- (rev_involutive (lstrip (rev s))), I, rev_app_distr. reflexivity.
Qed.

Lemma lstrip_rstrip_head (s : pystr) (c : codepoint) (rest : pystr) :
  (forall c' rest', s = c' :: rest' -> isspace c' = false) ->
  rstrip s = c :: rest -> isspace c = false.
Proof.
  intros H E. destruct (rstrip_spec s) as (after & Es & _ & _).
  rewrite E in Es. simpl in Es. exact (H c _ Es).
Qed.

(** [strip] removes white space from the two ends and nothing else. *)
Lemma strip_spec (s : pystr) :
  exists before after,
    s = before ++ strip s ++ after
    /\ forallb isspace before = true /\ forallb isspace after = true
    /\ (forall c rest, strip s = c :: rest -> isspace c = false)
    /\ (forall c front, strip s = front ++ [c] -> isspace c = false).
Proof.
  unfold strip.
  destruct (lstrip_spec s) as (before & E1 & W1 & H1).
  destruct (rstrip_spec (lstrip s)) as (after & E2 & W2 & H2).
  exists before, after. split; [|split; [exact W1|split; [exact W2|split]]].
  - rewrite <- E2. exact E1.
  - intros c rest. now apply lstrip_rstrip_head.
  - exact H2.
Qed.

Lemma replace_scan_skip (old new : pystr) (k : nat) (s : pystr) :
  replace_scan old new k s = replace_scan old new 0 (skipn k s).
Proof.
  revert k. induction s as [|c s IH]; intros [|k]; try reflexivity.
  simpl. apply IH.
Qed.

Lemma replace_scan_subsequence (old : pystr) (k : nat) (s : pystr) :
  subsequence (replace_scan old [] k s) s.
Proof.
  revert k. induction s as [|c s IH]; intros k; simpl.
  - constructor.
  - destruct k as [|k].
    + destruct (startswith (c :: s) old); simpl.
      * apply subsequence_drop, IH.
      * apply subsequence_keep, IH.
    + apply subsequence_drop, IH.
Qed.

Lemma subsequence_trans (a b c : pystr) :
  subsequence a b -> subsequence b c -> subsequence a c.
Proof.
  intros Hab Hbc. revert a Hab.
  induction Hbc as [|x b c Hbc IH|x b c Hbc IH]; intros a Hab.
  - exact Hab.
  - apply subsequence_drop, IH, Hab.
  - inversion Hab as [|y a' b' Hab'|y a' b' Hab']; subst.
    + apply subsequence_drop, IH, Hab'.
    + apply subsequence_keep, IH, Hab'.
Qed.

Lemma replace_subsequence (s old : pystr) :
  old <> [] -> subsequence (replace s old []) s.
Proof.
  intros N. destruct old as [|o old]; [contradiction|].
  apply replace_scan_subsequence.
Qed.

Lemma startswith_app (s p q : pystr) :
  startswith s (p ++ q) = true -> startswith s p = true.
Proof.
  rewrite !startswith_spec. intros [rest ->]. exists (q ++ rest).
  now rewrite app_assoc.
Qed.

Lemma contains_app (s p q : pystr) :
  contains s p = false -> contains s (p ++ q) = false.
Proof.
  induction s as [|c s IH]; simpl; intros H; apply orb_false_iff in H as [H1 H2].
  - destruct (startswith [] (p ++ q)) eqn:E; [|reflexivity].
    apply startswith_app in E. congruence.
  - rewrite (IH H2), orb_false_r.
    destruct (startswith (c :: s) (p ++ q)) eqn:E; [|reflexivity].
    apply startswith_app in E. congruence.
Qed.

(** Where [old] does not occur, [replace] changes nothing. *)
Lemma replace_absent (s old new : pystr) :
  old <> [] -> contains s old = false -> replace s old new = s.
Proof.
  intros N. destruct old as [|o old]; [contradiction|]. unfold replace.
  induction s as [|c s IH]; intros H; [reflexivity|].
  simpl in H. apply orb_false_iff in H as [H1 H2].
  cbn [replace_scan]. simpl. rewrite H1. now rewrite (IH H2).
Qed.

Lemma startswith_fence_leading (s : pystr) :
  startswith s Spec.fence = (3 <=? leading 96%N s)%nat.
Proof.
  destruct s as [|a [|b [|c s]]]; simpl;
    repeat match goal with |- context [N.eqb ?x 96%N] => destruct (N.eqb x 96%N) end;
    reflexivity.
Qed.

Lemma leading_skipn_fence (s : pystr) :
  startswith s Spec.fence = true ->
  (leading 96%N (skipn 3 s) <= leading 96%N s)%nat /\ (List.length (skipn 3 s) < List.length s)%nat.
Proof.
  destruct s as [|a [|b [|c s]]]; simpl;
    repeat match goal with |- context [N.eqb ?x 96%N] => destruct (N.eqb x 96%N) end;
    simpl; try discriminate; intros _; split; lia.
Qed.

Lemma replace_scan_fence_step (c : codepoint) (s : pystr) :
  replace_scan Spec.fence [] 0 (c :: s)
  = if startswith (c :: s) Spec.fence
    then replace_scan Spec.fence [] 0 (skipn 3 (c :: s))
    else c :: replace_scan Spec.fence [] 0 s.
Proof.
  cbn [replace_scan]. destruct (startswith (c :: s) Spec.fence); [|reflexivity].
  cbn [app]. now rewrite replace_scan_skip.
Qed.

(** After the fences are removed no fence is left: a run of back quotes
    only loses whole fences, and removing characters other than the back
    quotes of a run never joins two runs. *)
Lemma replace_fence_leaves_none (n : nat) :
  forall s, (List.length s <= n)%nat ->
    contains (replace_scan Spec.fence [] 0 s) Spec.fence = false
    /\ (leading 96%N (replace_scan Spec.fence [] 0 s) <= leading 96%N s)%nat.
Proof.
  induction n as [|n IH]; intros [|c s] L; try (simpl in L; lia);
    try (split; reflexivity).
  rewrite replace_scan_fence_step.
  destruct (startswith (c :: s) Spec.fence) eqn:E.
  - destruct (leading_skipn_fence _ E) as [L1 L2].
    destruct (IH (skipn 3 (c :: s))) as [I1 I2]; [lia|].
    split; [exact I1 | lia].
  - destruct (IH s) as [I1 I2]; [simpl in L; lia|].
    assert (B : (leading 96%N (c :: replace_scan Spec.fence [] 0 s)
                 <= leading 96%N (c :: s))%nat).
    { simpl. destruct (N.eqb c 96%N); lia. }
    split; [|exact B].
    cbn [contains]. rewrite I1, orb_false_r, startswith_fence_leading.
    rewrite startswith_fence_leading in E.
    apply Nat.leb_gt in E. apply Nat.leb_gt. lia.
Qed.

Section Deletion.
Variable old : pystr.
Hypothesis old_not_empty : old <> [].

Lemma occurs_length (s : pystr) :
  occurs old s -> (List.length old <= List.length s)%nat.
Proof. intros (b & a & ->). rewrite !length_app. lia. Qed.

Lemma removelast_shorter : S (List.length (removelast old)) = List.length old.
Proof.
  pose proof (@app_removelast_last codepoint old 0%N old_not_empty) as E.
  apply (f_equal (@List.length _)) in E. rewrite length_app in E.
  simpl in E. lia.
Qed.

Lemma occurs_cons (c : codepoint) (s : pystr) :
  occurs old (c :: s) -> (exists rest, c :: s = old ++ rest) \/ occurs old s.
Proof.
  intros ([|b before] & after & E).
  - left. now exists after.
  - right. injection E as _ ->. now exists before, after.
Qed.

Lemma prefix_of_prefix (x a y b : pystr) :
  x ++ a = y ++ b -> (List.length x <= List.length y)%nat ->
  exists t, y = x ++ t.
Proof.
  intros E L. apply app_eq_app in E as [l [[-> _]|[-> _]]].
  - rewrite length_app in L. destruct l; [|simpl in L; lia].
    exists []. now rewrite !app_nil_r.
  - now exists l.
Qed.

Lemma deletes_cons (c : codepoint) (s r : pystr) :
  (~ exists rest, c :: s = old ++ rest) ->
  deletes old s r -> deletes old (c :: s) (c :: r).
Proof.
  intros P D. destruct D as [s N | before rest r N D].
  - apply deletes_none. intros O. apply occurs_cons in O as [O|O]; contradiction.
  - apply (deletes_first old (c :: before) rest r); [|exact D].
    intros O. apply occurs_cons in O as [[rest0 O]|O]; [|contradiction].
    apply P. exists (rest0 ++ [@last codepoint old 0%N] ++ rest).
    pose proof (@app_removelast_last codepoint old 0%N old_not_empty) as E.
    revert O E. generalize (removelast old) (@last codepoint old 0%N).
    intros ro lo O E.
    rewrite (app_assoc old rest0), <- O, E.
    cbn [app]. now rewrite <- !app_assoc.
Qed.

Lemma replace_scan_step (c : codepoint) (s : pystr) :
  replace_scan old [] 0 (c :: s)
  = if startswith (c :: s) old
    then replace_scan old [] 0 (skipn (List.length old) (c :: s))
    else c :: replace_scan old [] 0 s.
Proof.
  cbn [replace_scan]. destruct (startswith (c :: s) old); [|reflexivity].
  cbn [app]. rewrite replace_scan_skip.
  destruct old as [|o old']; [contradiction|]. reflexivity.
Qed.

Lemma replace_scan_deletes (n : nat) :
  forall s, (List.length s <= n)%nat -> deletes old s (replace_scan old [] 0 s).
Proof.
  induction n as [|n IH]; intros [|c s] L; try (simpl in L; lia).
  - apply deletes_none. intros O. apply occurs_length in O.
    destruct old; [contradiction | simpl in O; lia].
  - apply deletes_none. intros O. apply occurs_length in O.
    destruct old; [contradiction | simpl in O; lia].
  - rewrite replace_scan_step. destruct (startswith (c :: s) old) eqn:E.
    + apply startswith_spec in E as [rest E]. rewrite E.
      rewrite skipn_app, skipn_all, Nat.sub_diag. cbn [app skipn].
      apply (deletes_first old [] rest).
      * intros O. apply occurs_length in O. cbn [app] in O.
        pose proof removelast_shorter. lia.
      * apply IH. apply (f_equal (@List.length _)) in E.
        rewrite length_app in E. simpl in E, L.
        destruct old; [contradiction | simpl in E; lia].
    + apply deletes_cons.
      * intros P. apply startswith_spec in P. congruence.
      * apply IH. simpl in L. lia.
Qed.

Lemma first_occurrence_earlier (b1 r1 b2 r2 : pystr) :
  b1 ++ old ++ r1 = b2 ++ old ++ r2 ->
  (List.length b1 < List.length b2)%nat ->
  occurs old (b2 ++ removelast old).
Proof.
  intros E L. apply app_eq_app in E as [l [[-> _]|[-> E]]].
  - rewrite length_app in L. lia.
  - rewrite length_app in L.
    assert (P : exists t, l ++ removelast old = old ++ t).
    { apply (prefix_of_prefix old r1 (l ++ removelast old) ([@last codepoint old 0%N] ++ r2)).
      - rewrite E.
        pose proof (@app_removelast_last codepoint old 0%N old_not_empty) as A.
        revert A. generalize (removelast old) (@last codepoint old 0%N).
        intros ro lo ->. now rewrite <- !app_assoc.
      - rewrite length_app. pose proof removelast_shorter. lia. }
    destruct P as [t P]. exists b1, t. now rewrite <- app_assoc, P.
Qed.

Lemma first_occurrence_unique (b1 r1 b2 r2 : pystr) :
  b1 ++ old ++ r1 = b2 ++ old ++ r2 ->
  ~ occurs old (b1 ++ removelast old) ->
  ~ occurs old (b2 ++ removelast old) ->
  b1 = b2 /\ r1 = r2.
Proof.
  intros E N1 N2.
  destruct (Nat.lt_trichotomy (List.length b1) (List.length b2)) as [L|[L|L]].
  - exfalso. apply N2. exact (first_occurrence_earlier _ _ _ _ E L).
  - apply app_eq_app in E as [l [[-> E]|[-> E]]];
      rewrite length_app in L; destruct l; try (simpl in L; lia);
      rewrite app_nil_r; cbn [app] in E; apply app_inv_head in E; auto.
  - exfalso. apply N1. symmetry in E. exact (first_occurrence_earlier _ _ _ _ E L).
Qed.

Lemma deletes_functional (s r1 : pystr) :
  deletes old s r1 -> forall r2, deletes old s r2 -> r1 = r2.
Proof.
  induction 1 as [s N | before rest r N D IH]; intros r2 D2.
  - inversion D2 as [s' N' | before' rest' r' N' D' E]; subst; [reflexivity|].
    exfalso. apply N. now exists before', rest'.
  - remember (before ++ old ++ rest) as s eqn:Es.
    destruct D2 as [s N' | before' rest' r' N' D'].
    + exfalso. apply N'. subst s. now exists before, rest.
    + destruct (first_occurrence_unique _ _ _ _ Es N' N) as [-> ->].
      f_equal. now apply IH.
Qed.

Lemma deletes_replace (s r : pystr) :
  deletes old s r <-> r = replace s old [].
Proof.
  assert (D : deletes old s (replace s old [])).
  { pose proof (replace_scan_deletes _ s (Nat.le_refl _)) as D.
    unfold replace. destruct old; [contradiction | exact D]. }
  split; [intros H; exact (deletes_functional _ _ H _ D) | now intros ->].
Qed.

End Deletion.

Lemma contains_spec (s sub : pystr) : contains s sub = true <-> occurs sub s.
Proof.
  split.
  - induction s as [|c s IH]; simpl; intros H; apply orb_true_iff in H as [H|H];
      try discriminate.
    + apply startswith_spec in H as [rest H]. now exists [], rest.
    + apply startswith_spec in H as [rest H]. now exists [], rest.
    + destruct (IH H) as (before & after & ->). now exists (c :: before), after.
  - intros (before & after & ->). induction before as [|b before IH].
    + assert (S : startswith (sub ++ after) sub = true)
        by (apply startswith_spec; now exists after).
      cbn [app]. destruct (sub ++ after); simpl; simpl in S; now rewrite S.
    + simpl. rewrite IH. apply orb_true_r.
Qed.

Lemma lstrip_spaces (before s : pystr) :
  forallb isspace before = true -> lstrip (before ++ s) = lstrip s.
Proof.
  induction before as [|c before IH]; simpl; [reflexivity|].
  intros H. apply andb_true_iff in H as [-> H]. now apply IH.
Qed.

Lemma lstrip_all_space (s : pystr) : forallb isspace s = true -> lstrip s = [].
Proof. intros H. rewrite <- (app_nil_r s). now rewrite lstrip_spaces. Qed.

Lemma trimmed_strip (raw t : pystr) : trimmed raw t <-> t = strip raw.
Proof.
  split.
  - intros (before & after & -> & B & A & H & T). unfold strip, rstrip.
    rewrite (lstrip_spaces _ _ B).
    destruct t as [|c t].
    + simpl. rewrite (lstrip_all_space _ A). reflexivity.
    + cbn [app lstrip]. rewrite (H c t eq_refl).
      change (c :: t ++ after) with ((c :: t) ++ after).
      rewrite rev_app_distr, lstrip_spaces by now rewrite forallb_rev.
      destruct (rev (c :: t)) as [|z rt] eqn:R.
      * apply (f_equal (@rev _)) in R. rewrite rev_involutive in R. discriminate.
      * assert (Z : isspace z = false).
        { apply (T z (rev rt)). apply (f_equal (@rev _)) in R.
          rewrite rev_involutive in R. exact R. }
        cbn [lstrip]. rewrite Z, <- R. symmetry. apply rev_involutive.
  - intros ->. destruct (strip_spec raw) as (before & after & H).
    now exists before, after.
Qed.

(** C2, as the code has it.  The text handed to the decoder is the
    answer with its surrounding white space trimmed, then every
    occurrence of the fence with its language tag deleted, then every
    occurrence of the bare fence deleted from what is left, wherever an
    occurrence stands, and nothing else changed: [response_text raw] is
    the one text that [prepared] relates to [raw].  So it is obtained
    from the trimmed answer by deleting characters only; no run of three
    back quotes is left in it, inside a JSON string or elsewhere; and
    when the trimmed answer holds no such run, the trimming is the only
    change. *)
Theorem response_text_removes_every_fence (raw : pystr) :
  prepared raw (response_text raw)
  /\ (forall r, prepared raw r -> r = response_text raw)
  /\ (forall t, trimmed raw t -> subsequence (response_text raw) t)
  /\ ~ occurs (lit "```") (response_text raw)
  /\ (forall t, trimmed raw t -> ~ occurs (lit "```") t -> response_text raw = t).
Proof.
  assert (J : lit "```json" <> []) by discriminate.
  assert (F : lit "```" <> []) by discriminate.
  unfold response_text. split; [|split; [|split; [|split]]].
  - exists (strip raw), (replace (strip raw) (lit "```json") []).
    split; [now apply trimmed_strip|].
    split; now apply deletes_replace.
  - intros r (t & m & T & D1 & D2).
    apply trimmed_strip in T. subst t.
    apply (deletes_replace _ J) in D1. subst m.
    now apply (deletes_replace _ F) in D2.
  - intros t T. apply trimmed_strip in T. subst t.
    eapply subsequence_trans; apply replace_subsequence; discriminate.
  - intros O. apply contains_spec in O.
    pose proof (proj1 (replace_fence_leaves_none _
                         (replace (strip raw) (lit "```json") []) (Nat.le_refl _))) as C.
    unfold replace in O. unfold Spec.fence in C. simpl in O, C. congruence.
  - intros t T N. apply trimmed_strip in T. subst t.
    assert (N' : ~ occurs (lit "```json") (strip raw)).
    { intros (before & after & E). apply N. exists before, (lit "json" ++ after).
      rewrite E. reflexivity. }
    assert (E1 : replace (strip raw) (lit "```json") [] = strip raw).
    { symmetry. apply (deletes_replace _ J). now apply deletes_none. }
    rewrite E1. symmetry. apply (deletes_replace _ F). now apply deletes_none.
Qed.

End Preparation.

(** ** The properties on sample runs *)

Import Sample.


(** The claim C2 fails on a fence inside a JSON string: trimming and
    unwrapping leave it alone, the code deletes it. *)
Lemma response_text_deletes_inner_fence :
  Spec.trim_and_unwrap fence_inside = fence_inside
  /\ response_text fence_inside = qlit "{^reasoning^: ^wrap code in  marks^}"
  /\ response_text fence_inside <> Spec.trim_and_unwrap fence_inside.
Proof.
  split; [reflexivity|]. split; [reflexivity|]. vm_compute. discriminate.
Defined.

(** A fenced answer is unwrapped, and an answer without back quotes is
    only trimmed. *)
Lemma response_text_removes_every_fence_witness :
  prepared fenced (nl ++ inconsistent ++ nl)
  /\ ~ occurs (lit "```") (response_text fenced)
  /\ response_text (lit "  {}  ") = lit "{}".
Proof.
  split; [|split].
  - assert (E : response_text fenced = nl ++ inconsistent ++ nl)
      by (vm_compute; reflexivity).
    rewrite <- E. exact (proj1 (response_text_removes_every_fence fenced)).
  - exact (proj1 (proj2 (proj2 (proj2 (response_text_removes_every_fence fenced))))).
  - apply (proj2 (proj2 (proj2 (proj2 (response_text_removes_every_fence (lit "  {}  ")))))).
    + apply trimmed_strip. reflexivity.
    + intros O. apply contains_spec in O. vm_compute in O. discriminate.
Defined.

(** The claim C3 fails on empty texts: the answer is valid JSON, its
    required texts are empty, and it is accepted as it is, with no
    diagnostic. *)
Lemma analyze_accepts_empty_texts :
  exists c,
    analyze_with_gemini (ext := answering empty_texts) job resume []
    = (Ok c, [genai_generate_content prompt])
    /\ candidate_name c = []
    /\ candidate_name c <> lit "Unknown/Error"
    /\ score c = 50%Z.
Proof.
  eexists. split; [vm_compute; reflexivity|].
  split; [reflexivity|]. split; [discriminate | reflexivity].
Defined.

(** The claim C4 fails on a key that holds a fence.  The answer is
    valid JSON as it was sent, with all the required fields, a score of
    50 and the flag [true]; the deletion of the fence turns its extra key
    into a second [is_recommended], of which the decoder keeps the last,
    and the record returned is not recommended. *)
Lemma analyze_flips_a_fenced_flag :
  (exists d,
     Json.loads Json.default_limits fenced_flag = Ok (VDict d)
     /\ dict_get d (lit "candidate_name") = Some (VStr (lit "Jane Doe"))
     /\ dict_get d (lit "score") = Some (VInt 50)
     /\ dict_get d (lit "summary") = Some (VStr (lit "Partial fit."))
     /\ dict_get d (lit "reasoning") = Some (VStr (lit "r"))
     /\ dict_get d (lit "is_recommended") = Some (VBool true))
  /\ exists c,
       analyze_with_gemini (ext := answering fenced_flag) job resume []
       = (Ok c, [genai_generate_content prompt])
       /\ score c = 50%Z
       /\ is_recommended c = false
       /\ is_recommended c <> true.
Proof.
  split.
  - eexists. split; [vm_compute; reflexivity|]. repeat split; reflexivity.
  - eexists. split; [vm_compute; reflexivity|].
    split; [reflexivity|]. split; [reflexivity | discriminate].
Defined.

(** A score of 101: the fallback of the second handler. *)
Lemma analyze_constraint_violation_fallback_witness :
  exists e,
    CandidateAnalysis_new (ext := answering score_101)
      (normalize_reasoning (ext := answering score_101) score_101_object) = Raise e
    /\ e = mk_exc ValidationError
             (validation_error_str (Externals := answering score_101)
                (normalize_reasoning (ext := answering score_101) score_101_object)
                (field_problems (ext := answering score_101)
                   (normalize_reasoning (ext := answering score_101) score_101_object)))
    /\ field_problems (ext := answering score_101)
         (normalize_reasoning (ext := answering score_101) score_101_object) <> []
    /\ analyze_with_gemini (ext := answering score_101) job resume []
       = (Ok {| candidate_name := lit "Unknown/Error"; score := 0;
                summary := lit "Analysis failed !";
                reasoning := lit "An unexpected error occurred : " ++ exc_str e;
                is_recommended := false |},
          [genai_generate_content prompt;
           st_error (lit "An unexpected error occurred during analysis : "
                     ++ exc_str e)]).
Proof.
  apply (proj1 (analyze_constraint_violation_fallback (ext := answering score_101)
                  job resume [] {| text := Ok score_101 |} score_101 score_101_object
                  eq_refl eq_refl ltac:(vm_compute; reflexivity))).
  apply (score_out_of_range (ext := answering score_101) _ (VInt 101) 101).
  - reflexivity.
  - reflexivity.
  - right. lia.
Defined.

(** Recommended with a score of 50: accepted unchanged. *)
Lemma analyze_accepts_conforming_response_witness :
  exists c,
    analyze_with_gemini (ext := answering inconsistent) job resume []
    = (Ok c, [genai_generate_content prompt])
    /\ score c = 50%Z
    /\ is_recommended c = true
    /\ candidate_name c = lit "Jane Doe"
    /\ summary c = lit "Partial fit."
    /\ (forall r, VStr (lit "**Strengths:** Python") = VStr r -> reasoning c = r).
Proof.
  apply (analyze_accepts_conforming_response (ext := answering inconsistent)
           job resume [] {| text := Ok inconsistent |} inconsistent
           [(lit "candidate_name", VStr (lit "Jane Doe")); (lit "score", VInt 50);
            (lit "summary", VStr (lit "Partial fit."));
            (lit "reasoning", VStr (lit "**Strengths:** Python"));
            (lit "is_recommended", VBool true)]
           (lit "Jane Doe") (lit "Partial fit.") (VStr (lit "**Strengths:** Python"))
           50 true).
  - reflexivity.
  - reflexivity.
  - vm_compute. reflexivity.
  - reflexivity.
  - reflexivity.
  - lia.
  - reflexivity.
  - reflexivity.
  - left. eexists. reflexivity.
  - reflexivity.
Defined.

(** A PDF in which no page is found extracts to the empty string: the
    file is skipped. *)
Lemma process_file_skips_empty_text_witness :
  process_file (ext := blank_documents) job 1 0 (file "scan.pdf" "%PDF-1.4") [] []
  = (Ok [], [st_write (lit "Processing scan.pdf ...");
             fitz_opening (list_byte_of_string "%PDF-1.4");
             progress_bar_progress 1 1])
  /\ model_calls [st_write (lit "Processing scan.pdf ...");
                  fitz_opening (list_byte_of_string "%PDF-1.4");
                  progress_bar_progress 1 1] = [].
Proof.
  apply (process_file_skips_empty_text (ext := blank_documents) job 1 0
           (file "scan.pdf" "%PDF-1.4") [] []
           [st_write (lit "Processing scan.pdf ...");
            fitz_opening (list_byte_of_string "%PDF-1.4")]).
  reflexivity.
Defined.

(** The suffix is compared as it is written: [.PDF] is not [.pdf]. *)
Lemma parse_resume_unrecognized_extension_witness :
  parse_resume (ext := answering not_json) (list_byte_of_string "%PDF-1.4")
    (lit "resume.PDF") []
  = (Ok [], []).
Proof.
  apply (parse_resume_unrecognized_extension (ext := answering not_json)).
  - intros H. apply endswith_spec in H. vm_compute in H. discriminate.
  - intros H. apply endswith_spec in H. vm_compute in H. discriminate.
Defined.

(** Three pages; five paragraphs, one of them empty. *)
Lemma parse_resume_well_formed_witness :
  parse_resume (ext := long_documents) [] (lit "cv.pdf") []
  = (Ok (lit "Jane Doe, engineer"), [fitz_opening []])
  /\ parse_resume (ext := long_documents) [] (lit "cv.docx") []
     = (Ok (lit "Jane Doe" ++ [10%N; 10%N] ++ lit "Skills" ++ [10%N]
            ++ lit "Rocq" ++ [10%N] ++ lit "OCaml"),
        [docx_opening []]).
Proof.
  split.
  - apply (proj1 (parse_resume_well_formed (ext := long_documents)
                    [] (lit "cv") [lit "Jane "; lit "Doe"; lit ", engineer"] [])).
    reflexivity.
  - apply (proj2 (parse_resume_well_formed (ext := long_documents)
                    [] (lit "cv")
                    [lit "Jane Doe"; []; lit "Skills"; lit "Rocq"; lit "OCaml"] [])).
    reflexivity.
Defined.

(** No job description. *)
Lemma on_analyze_rejects_missing_input_witness :
  exists msg,
    on_analyze (ext := three_candidates) [] uploads [] = (Ok tt, [st_error msg])
    /\ (msg = lit "Please paste a job description."
        \/ msg = lit "Please upload at least one resume.")
    /\ model_calls [st_error msg] = []
    /\ extractions [st_error msg] = []
    /\ rendered_titles [st_error msg] = [].
Proof.
  apply (on_analyze_rejects_missing_input (ext := three_candidates) [] uploads []).
  left. reflexivity.
Defined.

(** The three uploads of the sample: every record is in range. *)
Lemma score_always_in_range_witness :
  score_in_range
    {| candidate_name := lit "Unknown/Error"; score := 0;
       summary := lit "Analysis failed !";
       reasoning := lit "An unexpected error occurred : score";
       is_recommended := false |}
  /\ Forall score_in_range [candidate "Bob" 40; candidate "Alice" 90; candidate "Carol" 90]
  /\ Forall score_in_range
       (ranked_candidates [candidate "Bob" 40; candidate "Alice" 90; candidate "Carol" 90]).
Proof.
  split.
  - eapply (proj1 (score_always_in_range (ext := answering score_101) job)
              resume []).
    vm_compute. reflexivity.
  - eapply (proj2 (score_always_in_range (ext := three_candidates) job)
              uploads []).
    vm_compute. reflexivity.
Defined.

(** The ranking of the sample: Alice and Carol, who tie at 90, stay in
    upload order ahead of Bob. *)
Example ranking_of_the_sample :
  rendered_titles (snd (on_analyze (ext := three_candidates) job uploads []))
  = [lit "**Alice**"; lit "**Carol**"; lit "**Bob**"].
Proof. vm_compute. reflexivity. Qed.

(** A score of 101 goes through the second handler: the reasoning of
    the fallback carries the text of the error, not the raw answer. *)
Example score_101_goes_through_the_second_handler :
  exists c l,
    analyze_with_gemini (ext := answering score_101) job resume [] = (Ok c, l)
    /\ reasoning c = lit "An unexpected error occurred : score"
    /\ contains (reasoning c) score_101 = false.
Proof. eexists. eexists. split; [vm_compute; reflexivity|]. split; reflexivity. Qed.

(** The constraints are read on what the prepared text decodes to: an
    answer that is valid JSON with a score of 150 as it was sent, and a
    further key that the deletion of the fence turns into a second
    [score], is accepted with that score. *)
Example fenced_score_is_accepted :
  (exists d,
     Json.loads Json.default_limits fenced_score = Ok (VDict d)
     /\ dict_get d (lit "score") = Some (VInt 150))
  /\ exists c,
       analyze_with_gemini (ext := answering fenced_score) job resume []
       = (Ok c, [genai_generate_content prompt])
       /\ score c = 50%Z.
Proof.
  split.
  - eexists. split; [vm_compute; reflexivity | reflexivity].
  - eexists. split; [vm_compute; reflexivity | reflexivity].
Qed.

(** A model call that raises [TypeError] leaves [response] unbound in
    the first handler, and the step raises. *)
Example unbound_response_propagates :
  let failing := Reference.externals
    {| Reference.decoder_limits := Json.default_limits;
       Reference.model := fun _ _ => Raise (mk_exc TypeError (lit "bad argument"));
       Reference.pdf_reader := fun _ => Ok [];
       Reference.docx_reader := fun _ => Ok [];
       Reference.format_other := type_name;
       Reference.lax_str := fun _ => None;
       Reference.lax_int := fun _ => None;
       Reference.lax_bool := fun _ => None;
       Reference.validation_text := fun _ _ => [] |} in
  fst (analyze_with_gemini (ext := failing) job resume []) = Raise unbound_response.
Proof. reflexivity. Qed.


(* ================================================================= *)
(** * Further properties *)

(** ** Extraction errors *)

Section ExtractionErrors.
Context {ext : Externals}.

Lemma collect_raises {A : Type} (before : list A) (e : exc) (rest : list (result A)) :
  collect (map Ok before ++ Raise e :: rest) = Raise e.
Proof. induction before as [|a before IH]; simpl; [reflexivity | now rewrite IH]. Qed.

(** X1. An extraction that fails with an [Exception] is not fatal:
    whether the library cannot open the document or one of its pages or
    paragraphs cannot be read, [parse_resume] shows one error naming the
    file and returns the empty string.  The text of the pages read
    before the failure is dropped, not returned. *)
Theorem parse_resume_extraction_error
    (file_bytes : bytes) (before : pystr) (e : exc) (l : log) :
  is_Exception e = true ->
  ((fitz_open file_bytes = Raise e
    \/ exists texts rest, fitz_open file_bytes = Ok (map Ok texts ++ Raise e :: rest)) ->
   parse_resume file_bytes (before ++ lit ".pdf") l
   = (Ok [], l ++ [fitz_opening file_bytes;
                   st_error (lit "Error parsing " ++ (before ++ lit ".pdf")
                             ++ lit " : " ++ exc_str e)]))
  /\
  ((docx_Document file_bytes = Raise e
    \/ exists texts rest, docx_Document file_bytes = Ok (map Ok texts ++ Raise e :: rest)) ->
   parse_resume file_bytes (before ++ lit ".docx") l
   = (Ok [], l ++ [docx_opening file_bytes;
                   st_error (lit "Error parsing " ++ (before ++ lit ".docx")
                             ++ lit " : " ++ exc_str e)])).
Proof.
  intros X. split; intros H.
  - assert (E : endswith (before ++ lit ".pdf") (lit ".pdf") = true)
      by (apply endswith_spec; now exists before).
    unfold parse_resume, try_except, bind, call_fitz_open, lift, emit, ret.
    rewrite E. destruct H as [H | (texts & rest & H)]; rewrite H.
    + rewrite X, <- app_assoc. reflexivity.
    + rewrite collect_raises, X, <- app_assoc. reflexivity.
  - assert (E : endswith (before ++ lit ".docx") (lit ".docx") = true)
      by (apply endswith_spec; now exists before).
    unfold parse_resume, try_except, bind, call_docx_Document, lift, emit, ret.
    rewrite docx_name_is_not_pdf, E.
    destruct H as [H | (texts & rest & H)]; rewrite H.
    + rewrite X, <- app_assoc. reflexivity.
    + rewrite collect_raises, X, <- app_assoc. reflexivity.
Qed.

End ExtractionErrors.

(** ** The other paths of the analysis step *)

Section AnalysisPaths.
Context {ext : Externals}.

Lemma second_handler (response : option GenerateContentResponse) (e : exc) (l : log) :
  is_format_error e = false -> is_Exception e = true ->
  analyze_handlers response e l
  = (Ok {| candidate_name := lit "Unknown/Error"; score := 0;
           summary := lit "Analysis failed !";
           reasoning := lit "An unexpected error occurred : " ++ exc_str e;
           is_recommended := false |},
     l ++ [st_error (lit "An unexpected error occurred during analysis : " ++ exc_str e)]).
Proof.
  intros F X. unfold analyze_handlers, bind, emit, lift.
  now rewrite F, X, unexpected_error_fallback_ok.
Qed.

(** X2. A failure of the model call, or of reading the text of its
    response, with an [Exception] of another class than the three of the
    first handler (a network error, a blocked response) is recovered: the
    step shows one generic diagnostic and returns the fallback record
    whose reasoning carries the text of the error. *)
Theorem analyze_unexpected_error_fallback
    (job_description resume_text : pystr) (l : log) (e : exc) :
  (generate_content (List.length (model_calls l))
     (PROMPT_TEMPLATE_format job_description resume_text) = Raise e
   \/ exists response,
        generate_content (List.length (model_calls l))
          (PROMPT_TEMPLATE_format job_description resume_text) = Ok response
        /\ text response = Raise e) ->
  is_format_error e = false ->
  is_Exception e = true ->
  analyze_with_gemini job_description resume_text l
  = (Ok {| candidate_name := lit "Unknown/Error"; score := 0;
           summary := lit "Analysis failed !";
           reasoning := lit "An unexpected error occurred : " ++ exc_str e;
           is_recommended := false |},
     l ++ [genai_generate_content (PROMPT_TEMPLATE_format job_description resume_text);
           st_error (lit "An unexpected error occurred during analysis : " ++ exc_str e)]).
Proof.
  intros H F X. destruct H as [H | (response & H & T)].
  - unfold analyze_with_gemini, try_binding, call_generate_content. rewrite H.
    rewrite (second_handler None e _ F X), <- app_assoc. reflexivity.
  - rewrite (analyze_with_gemini_answered _ _ _ _ H). cbv zeta.
    unfold analyze_body, bind, lift. rewrite T.
    rewrite (second_handler (Some response) e _ F X), <- app_assoc. reflexivity.
Qed.

(** X3. An answer that is valid JSON but not an object (a list, a
    string, a number, [true], [null]) fails on [.get] with an
    [AttributeError]; the second handler turns it into the fallback
    record, and the diagnostic names the type of the value. *)
Theorem analyze_non_object_answer
    (job_description resume_text : pystr) (l : log)
    (response : GenerateContentResponse) (raw : pystr) (v : value) :
  generate_content (List.length (model_calls l))
    (PROMPT_TEMPLATE_format job_description resume_text) = Ok response ->
  text response = Ok raw ->
  json_loads (response_text raw) = Ok v ->
  (forall d, v <> VDict d) ->
  analyze_with_gemini job_description resume_text l
  = (Ok {| candidate_name := lit "Unknown/Error"; score := 0;
           summary := lit "Analysis failed !";
           reasoning := lit "An unexpected error occurred : '" ++ type_name v
                        ++ lit "' object has no attribute 'get'";
           is_recommended := false |},
     l ++ [genai_generate_content (PROMPT_TEMPLATE_format job_description resume_text);
           st_error (lit "An unexpected error occurred during analysis : '"
                     ++ type_name v ++ lit "' object has no attribute 'get'")]).
Proof.
  intros Hg Ht Hj Hv.
  rewrite (analyze_with_gemini_answered _ _ _ _ Hg). cbv zeta.
  unfold analyze_body, bind, lift, raise. rewrite Ht, Hj.
  destruct v as [| | | | | |d]; try (now destruct (Hv d));
    match goal with |- context [no_attribute_get ?x] =>
      rewrite (second_handler (Some response) (no_attribute_get x) _ eq_refl eq_refl)
    end; rewrite <- app_assoc; reflexivity.
Qed.

(** X4. When the model call itself raises an exception of one of the
    three classes of the first handler ([TypeError], [KeyError],
    [JSONDecodeError]), that handler shows its diagnostic and then reads
    [response], which was never bound: the step raises
    [UnboundLocalError] to its caller instead of returning a record. *)
Theorem analyze_format_error_from_the_call
    (job_description resume_text : pystr) (l : log) (e : exc) :
  generate_content (List.length (model_calls l))
    (PROMPT_TEMPLATE_format job_description resume_text) = Raise e ->
  is_format_error e = true ->
  exists e',
    analyze_with_gemini job_description resume_text l
    = (Raise e',
       l ++ [genai_generate_content (PROMPT_TEMPLATE_format job_description resume_text);
             st_error (lit "Error parsing Gemini's JSON response : " ++ exc_str e
                       ++ lit ", the model might have returned an invalid format !")])
    /\ exc_type e' = UnboundLocalError.
Proof.
  intros H F. exists unbound_response. split; [|reflexivity].
  unfold analyze_with_gemini, try_binding, call_generate_content. rewrite H.
  unfold analyze_handlers, bind, emit, raise. rewrite F, <- app_assoc. reflexivity.
Qed.

(** What the step adds to the log: the call, then error messages. *)
Lemma analyze_with_gemini_events (job_description resume_text : pystr) (l : log) :
  exists errs,
    snd (analyze_with_gemini job_description resume_text l)
    = l ++ genai_generate_content (PROMPT_TEMPLATE_format job_description resume_text)
        :: map st_error errs.
Proof.
  unfold analyze_with_gemini, try_binding, call_generate_content.
  set (prompt := PROMPT_TEMPLATE_format job_description resume_text).
  set (l1 := l ++ [genai_generate_content prompt]).
  assert (H : forall r e, exists errs,
             snd (analyze_handlers r e l1) = l ++ genai_generate_content prompt :: map st_error errs).
  { intros r e. unfold analyze_handlers, bind, emit, lift, raise.
    destruct (is_format_error e).
    - destruct r as [r|]; [destruct (text r)|]; eexists [_]; simpl;
        unfold l1; rewrite <- app_assoc; reflexivity.
    - destruct (is_Exception e).
      + eexists [_]; simpl; unfold l1; rewrite <- app_assoc; reflexivity.
      + exists []. reflexivity. }
  destruct (generate_content _ prompt) as [response|e]; [|apply H].
  pose proof (analyze_body_log response l1) as B.
  destruct (analyze_body response l1) as [[c|e] l2]; simpl in B; subst l2.
  - exists []. reflexivity.
  - apply H.
Qed.

(** X5. Whatever the model answers and whichever path is taken, one
    analysis sends exactly one request to the model, carrying the prompt
    built from the job description and the resume: nothing is retried,
    and no document is opened. *)
Theorem analyze_calls_the_model_once
    (job_description resume_text : pystr) (l : log) :
  model_calls (snd (analyze_with_gemini job_description resume_text l))
  = model_calls l
    ++ [genai_generate_content (PROMPT_TEMPLATE_format job_description resume_text)]
  /\ extractions (snd (analyze_with_gemini job_description resume_text l))
     = extractions l.
Proof.
  destruct (analyze_with_gemini_events job_description resume_text l) as [errs ->].
  rewrite model_calls_app, extractions_app. cbn [model_calls extractions filter is_generate_content is_extraction].
  assert (M : forall es, filter is_generate_content (map st_error es) = []
                         /\ filter is_extraction (map st_error es) = []).
  { induction es as [|x es [I1 I2]]; simpl; auto. }
  destruct (M errs) as [-> ->]. now rewrite app_nil_r.
Qed.

Lemma dict_set_keys (d : dict) (k : pystr) (v w : value) :
  dict_get d k = Some w -> map fst (dict_set d k v) = map fst d.
Proof.
  induction d as [|[k' v'] d IH]; simpl; [discriminate|].
  destruct (str_eqb k' k); simpl; [reflexivity|].
  intros H. now rewrite IH.
Qed.

(** X6. The rewriting of a structured [reasoning] touches that field
    only: the keys of the answer and their order are kept, every other
    field keeps its value, and rewriting twice changes nothing more. *)
Theorem normalize_reasoning_frame (d : dict) :
  map fst (normalize_reasoning d) = map fst d
  /\ (forall k, k <> lit "reasoning" ->
                dict_get (normalize_reasoning d) k = dict_get d k)
  /\ normalize_reasoning (normalize_reasoning d) = normalize_reasoning d.
Proof.
  split; [|split].
  - unfold normalize_reasoning.
    destruct (dict_get d (lit "reasoning")) as [[| | | | | |rd]|] eqn:G; try reflexivity.
    exact (dict_set_keys d _ _ _ G).
  - intros k. apply normalize_reasoning_other.
  - unfold normalize_reasoning at 2.
    destruct (dict_get d (lit "reasoning")) as [[| | | | | |rd]|] eqn:G;
      try (unfold normalize_reasoning; now rewrite G).
    unfold normalize_reasoning. now rewrite dict_get_set_same, G.
Qed.


End AnalysisPaths.

(** ** The batch, event by event *)

Section BatchTrace.
Context {ext : Externals}.

Lemma backstage_errors (errs : list pystr) : Forall backstage (map st_error errs).
Proof. induction errs; simpl; constructor; simpl; auto. Qed.

Lemma model_calls_errors (errs : list pystr) : model_calls (map st_error errs) = [].
Proof. induction errs; simpl; auto. Qed.

(** Backstage events show nothing of what the user follows. *)
Lemma backstage_silent (evs : log) :
  Forall backstage evs ->
  announcements evs = [] /\ progress_steps evs = []
  /\ rendered_titles evs = [] /\ subheaders evs = [].
Proof.
  induction 1 as [|ev evs B _ (I1 & I2 & I3 & I4)]; [repeat split|].
  destruct ev; simpl in B; try contradiction; simpl; auto.
Qed.

Lemma parse_resume_events (file_bytes : bytes) (filename : pystr) (l : log) :
  exists evs,
    snd (parse_resume file_bytes filename l) = l ++ evs
    /\ Forall backstage evs /\ model_calls evs = [].
Proof.
  unfold parse_resume, try_except, bind, call_fitz_open, call_docx_Document,
    lift, emit, ret, raise.
  destruct (endswith filename (lit ".pdf")); [|destruct (endswith filename (lit ".docx"))].
  - destruct (fitz_open file_bytes) as [doc|e]; [destruct (collect doc) as [pages|e]|];
      simpl; try destruct (is_Exception e); simpl; rewrite <- ?app_assoc;
      eexists; (split; [reflexivity|]); split; try reflexivity;
      repeat constructor.
  - destruct (docx_Document file_bytes) as [doc|e]; [destruct (collect doc) as [pages|e]|];
      simpl; try destruct (is_Exception e); simpl; rewrite <- ?app_assoc;
      eexists; (split; [reflexivity|]); split; try reflexivity;
      repeat constructor.
  - exists []. rewrite app_nil_r. repeat split. constructor.
Qed.

(** One turn of the loop that completes: the announcement, backstage
    events, the progress step; at most one record, appended, with one
    model call for it. *)
Lemma process_file_trace
    (jd_input : pystr) (total i : nat) (file : UploadedFile)
    (all_analyses all_analyses' : list CandidateAnalysis) (l l' : log) :
  process_file jd_input total i file all_analyses l = (Ok all_analyses', l') ->
  exists evs new,
    l' = l ++ st_write (announcement file) :: evs
           ++ [progress_bar_progress (i + 1) total]
    /\ Forall backstage evs
    /\ all_analyses' = all_analyses ++ new
    /\ List.length (model_calls evs) = List.length new
    /\ (List.length new <= 1)%nat.
Proof.
  unfold process_file, bind, emit, ret. fold (announcement file). intros H.
  destruct (parse_resume_events (content file) (name file)
              (l ++ [st_write (announcement file)])) as (evs1 & E1 & B1 & M1).
  destruct (parse_resume _ _ _) as [[resume_text|e] l1]; [|discriminate].
  simpl in E1. subst l1.
  destruct (truthy resume_text).
  - destruct (analyze_with_gemini_events jd_input resume_text
                ((l ++ [st_write (announcement file)]) ++ evs1)) as [errs E2].
    destruct (analyze_with_gemini jd_input resume_text _) as [[c|e] l2]; [|discriminate].
    simpl in E2. subst l2. injection H as <- <-.
    exists (evs1 ++ genai_generate_content (PROMPT_TEMPLATE_format jd_input resume_text)
              :: map st_error errs), [c].
    split; [now rewrite <- !app_assoc|].
    split; [apply Forall_app; split; [exact B1|constructor; [exact I|apply backstage_errors]]|].
    split; [reflexivity|].
    rewrite model_calls_app, M1. cbn [app model_calls filter is_generate_content].
    fold (model_calls (map st_error errs)). rewrite model_calls_errors.
    split; [reflexivity | simpl; lia].
  - injection H as <- <-. exists evs1, [].
    split; [now rewrite <- !app_assoc|]. split; [exact B1|].
    split; [now rewrite app_nil_r|]. rewrite M1. split; [reflexivity | simpl; lia].
Qed.

Lemma analyze_loop_trace (jd_input : pystr) (total : nat) (files : list UploadedFile) :
  forall (i : nat) (all_analyses all_analyses' : list CandidateAnalysis) (l l' : log),
  analyze_loop jd_input total i files all_analyses l = (Ok all_analyses', l') ->
  exists evs new,
    l' = l ++ evs
    /\ all_analyses' = all_analyses ++ new
    /\ List.length (model_calls evs) = List.length new
    /\ (List.length new <= List.length files)%nat
    /\ announcements evs = map announcement files
    /\ progress_steps evs = map (fun k => (k + 1, total)) (seq i (List.length files))
    /\ rendered_titles evs = [] /\ subheaders evs = [].
Proof.
  induction files as [|file rest IH]; intros i a a' l l' H; simpl in H.
  - unfold ret in H. injection H as <- <-. exists [], [].
    rewrite !app_nil_r. repeat split. simpl. lia.
  - unfold bind in H.
    destruct (process_file jd_input total i file a l) as [[a1|e] l1] eqn:P;
      [|discriminate].
    destruct (process_file_trace _ _ _ _ _ _ _ _ P) as (evs1 & new1 & -> & B1 & -> & C1 & N1).
    destruct (IH _ _ _ _ _ H) as (evs2 & new2 & -> & -> & C2 & N2 & A2 & P2 & R2 & S2).
    destruct (backstage_silent evs1 B1) as (SA & SP & SR & SS).
    exists ((st_write (announcement file) :: evs1
             ++ [progress_bar_progress (i + 1) total]) ++ evs2), (new1 ++ new2).
    split; [now rewrite <- !app_assoc|].
    split; [now rewrite <- !app_assoc|].
    split.
    { rewrite !model_calls_app, !length_app, C2, <- C1.
      cbn [model_calls filter is_generate_content app List.length].
      rewrite model_calls_app, length_app. simpl. lia. }
    split; [rewrite length_app; simpl; lia|].
    unfold announcements, progress_steps, rendered_titles, subheaders in *.
    rewrite !flat_map_app. cbn [flat_map]. rewrite !flat_map_app.
    rewrite SA, SP, SR, SS, A2, P2, R2, S2. simpl. repeat split.
Qed.

(** X8. In a batch that completes, the records accumulated are as
    many as the requests sent to the model, one per resume that was
    analysed, and never more than the files uploaded. *)
Theorem run_batch_one_record_per_call
    (jd_input : pystr) (resume_files : list UploadedFile)
    (all_analyses : list CandidateAnalysis) (l l' : log) :
  run_batch jd_input resume_files l = (Ok all_analyses, l') ->
  List.length (model_calls l') = List.length (model_calls l) + List.length all_analyses
  /\ (List.length all_analyses <= List.length resume_files)%nat.
Proof.
  unfold run_batch, bind, emit, ret. intros H.
  destruct (analyze_loop _ _ _ _ _ _) as [[a|e] l1] eqn:L; [|discriminate].
  injection H as <- <-.
  destruct (analyze_loop_trace _ _ _ _ _ _ _ _ L) as (evs & new & -> & -> & C & N & _).
  rewrite !model_calls_app, !length_app, C. simpl. split; lia.
Qed.


End BatchTrace.

(** ** Recovery *)

Section Recovery.
Context {ext : Externals}.
Hypothesis libraries : recoverable.

Lemma parse_resume_returns (file_bytes : bytes) (filename : pystr) (l : log) :
  exists resume_text l', parse_resume file_bytes filename l = (Ok resume_text, l').
Proof.
  destruct libraries as (_ & _ & _ & Fo & Fc & Do & Dc).
  unfold parse_resume, try_except, bind, call_fitz_open, call_docx_Document,
    lift, emit, ret, raise.
  destruct (endswith filename (lit ".pdf")); [|destruct (endswith filename (lit ".docx"))].
  - destruct (fitz_open file_bytes) as [doc|e] eqn:O.
    + destruct (collect doc) as [pages|e] eqn:C; [eauto|].
      rewrite (Fc _ _ _ O C). eauto.
    + rewrite (Fo _ _ O). eauto.
  - destruct (docx_Document file_bytes) as [doc|e] eqn:O.
    + destruct (collect doc) as [pages|e] eqn:C; [eauto|].
      rewrite (Dc _ _ _ O C). eauto.
    + rewrite (Do _ _ O). eauto.
  - eauto.
Qed.

Lemma analyze_with_gemini_recovers (job_description resume_text : pystr) (l : log) :
  exists c l', analyze_with_gemini job_description resume_text l = (Ok c, l').
Proof.
  destruct libraries as (Gc & Gt & Js & _).
  destruct (generate_content (List.length (model_calls l))
              (PROMPT_TEMPLATE_format job_description resume_text))
    as [response|e] eqn:G.
  - destruct (text response) as [raw|e] eqn:T.
    + exact (analyze_with_gemini_returns _ _ _ _ _ G T (Js _)).
    + destruct (Gt _ _ _ _ G T) as [F X].
      rewrite (analyze_with_gemini_answered _ _ _ _ G). cbv zeta.
      unfold analyze_body, bind, lift. rewrite T.
      rewrite (second_handler _ _ _ F X). eauto.
  - destruct (Gc _ _ _ G) as [F X].
    unfold analyze_with_gemini, try_binding, call_generate_content. rewrite G.
    rewrite (second_handler _ _ _ F X). eauto.
Qed.

Lemma analyze_loop_returns (jd_input : pystr) (total : nat) (files : list UploadedFile) :
  forall (i : nat) (all_analyses : list CandidateAnalysis) (l : log),
  exists all_analyses' l',
    analyze_loop jd_input total i files all_analyses l = (Ok all_analyses', l').
Proof.
  induction files as [|file rest IH]; intros i a l; simpl.
  - unfold ret. eauto.
  - unfold bind at 1. unfold process_file, bind, emit, ret.
    destruct (parse_resume_returns (content file) (name file)
                (l ++ [st_write (lit "Processing " ++ name file ++ lit " ...")]))
      as (resume_text & l1 & ->).
    destruct (truthy resume_text).
    + destruct (analyze_with_gemini_recovers jd_input resume_text l1) as (c & l2 & ->).
      apply IH.
    + apply IH.
Qed.

(** X10. As long as the libraries fail only in ways the handlers
    recover from, a run always completes: an unreadable document, a
    failed model call, a malformed or invalid answer for one resume never
    stops the batch nor the rendering of the others. *)
Theorem on_analyze_completes
    (jd_input : pystr) (resume_files : list UploadedFile) (l : log) :
  exists l', on_analyze jd_input resume_files l = (Ok tt, l').
Proof.
  unfold on_analyze, emit.
  destruct (negb (truthy (strip jd_input))); [eauto|].
  destruct (negb (truthy resume_files)); [eauto|].
  unfold run_batch, bind, emit, ret.
  destruct (analyze_loop_returns jd_input (List.length resume_files) resume_files 0 []
              ((l ++ [st_spinner (lit "Analyzing ... this may take a few moments ...")])
               ++ [st_progress 0])) as (a & l1 & ->).
  unfold render_results. destruct (truthy a); [|unfold ret; eauto].
  unfold bind, emit.
  pose proof (proj1 (render_all_titles (ranked_candidates a)
                       ((l1 ++ [progress_bar_empty])
                        ++ [st_subheader (lit "Analysis Results")]))) as R.
  destruct (render_all _ _) as [r l2]. simpl in R. subst r. eauto.
Qed.

End Recovery.

Section EdgeRuns.
Context {ext : Externals}.

Lemma analyze_loop_unrecognized (jd_input : pystr) (total : nat)
    (files : list UploadedFile) :
  Forall (fun file => unrecognized (name file)) files ->
  forall (i : nat) (all_analyses : list CandidateAnalysis) (l : log),
  exists evs,
    analyze_loop jd_input total i files all_analyses l = (Ok all_analyses, l ++ evs)
    /\ model_calls evs = [] /\ extractions evs = [] /\ errors_shown evs = []
    /\ rendered_titles evs = [] /\ subheaders evs = [].
Proof.
  induction 1 as [|file rest [U1 U2] _ IH]; intros i a l; simpl.
  - exists []. rewrite app_nil_r. unfold ret. repeat split.
  - unfold bind at 1. unfold process_file, parse_resume, try_except, bind, emit, ret.
    rewrite U1, U2. cbn [truthy].
    destruct (IH (S i) a ((l ++ [st_write (lit "Processing " ++ name file ++ lit " ...")])
                          ++ [progress_bar_progress (i + 1) total]))
      as (evs & -> & M & X & E & R & S).
    exists (st_write (lit "Processing " ++ name file ++ lit " ...")
            :: progress_bar_progress (i + 1) total :: evs).
    split; [now rewrite <- !app_assoc|]. simpl. auto.
Qed.

(** X11. When no uploaded file has a name ending in [.pdf] or [.docx]
    as the code compares it (a name in capitals, say), the run completes
    in silence: nothing is opened, nothing is sent to the model, no error
    is shown and no result, not even the heading, is rendered. *)
Theorem on_analyze_nothing_recognized
    (jd_input : pystr) (resume_files : list UploadedFile) (l : log) :
  truthy (strip jd_input) = true ->
  resume_files <> [] ->
  Forall (fun file => unrecognized (name file)) resume_files ->
  exists l',
    on_analyze jd_input resume_files l = (Ok tt, l')
    /\ model_calls l' = model_calls l
    /\ extractions l' = extractions l
    /\ errors_shown l' = errors_shown l
    /\ rendered_titles l' = rendered_titles l
    /\ subheaders l' = subheaders l.
Proof.
  intros J N U. unfold on_analyze. rewrite J. cbn [negb].
  destruct resume_files as [|file rest] eqn:F; [contradiction|]. rewrite <- F in *.
  replace (negb (truthy resume_files)) with false by (now rewrite F).
  unfold run_batch, bind, emit, ret.
  destruct (analyze_loop_unrecognized jd_input (List.length resume_files) _ U 0 []
              ((l ++ [st_spinner (lit "Analyzing ... this may take a few moments ...")])
               ++ [st_progress 0])) as (evs & -> & M & X & E & R & S).
  cbn [render_results truthy]. eexists. split; [reflexivity|].
  unfold errors_shown, subheaders, rendered_titles in *.
  rewrite !model_calls_app, !extractions_app, !flat_map_app, M, X, E, R, S.
  simpl. now rewrite !app_nil_r.
Qed.

Lemma lstrip_blank (s : pystr) : forallb isspace s = true -> lstrip s = [].
Proof.
  induction s as [|c s IH]; simpl; [reflexivity|].
  intros H. apply andb_true_iff in H as [-> H]. now apply IH.
Qed.

(** X12. A job description made of white space only (spaces, tabs,
    line breaks, or any other character [str.isspace] accepts) is refused
    like an empty one, and this check comes first: the message about the
    job description is shown whether or not files were uploaded, and
    nothing else happens. *)
Theorem on_analyze_blank_job_description_first
    (jd_input : pystr) (resume_files : list UploadedFile) (l : log) :
  forallb isspace jd_input = true ->
  on_analyze jd_input resume_files l
  = (Ok tt, l ++ [st_error (lit "Please paste a job description.")]).
Proof.
  intros H. unfold on_analyze, strip. now rewrite (lstrip_blank _ H).
Qed.

End EdgeRuns.

(** ** More on the ranking *)

Section RankingMore.

(** X13. The ranking depends on the accumulated list only through the
    order of the records within each score: two lists that hold, for
    every score, the same records in the same order are ranked alike,
    however records of different scores are interleaved. *)
Theorem ranked_candidates_order_within_scores
    (first second : list CandidateAnalysis) :
  (forall k, with_key score k first = with_key score k second) ->
  ranked_candidates first = ranked_candidates second.
Proof.
  intros H. unfold ranked_candidates.
  apply (descending_stable_unique _ score); try apply sorted_reverse_descending.
  intros k. now rewrite !sorted_reverse_stable.
Qed.

(** X14. A list whose scores already never increase is its own
    ranking: ranking a ranking changes nothing. *)
Theorem ranked_candidates_keeps_a_ranking (all_analyses : list CandidateAnalysis) :
  descending score all_analyses ->
  ranked_candidates all_analyses = all_analyses.
Proof.
  intros H. unfold ranked_candidates.
  apply (descending_stable_unique _ score);
    [apply sorted_reverse_descending | exact H | intros k; apply sorted_reverse_stable].
Qed.

Lemma filter_head {A : Type} (p : A -> bool) (l : list A) (c : A) (t : list A) :
  filter p l = c :: t ->
  exists before after,
    l = before ++ c :: after /\ Forall (fun x => p x = false) before.
Proof.
  induction l as [|x l IH]; simpl; [discriminate|].
  destruct (p x) eqn:P.
  - intros H. injection H as -> _. exists [], l. split; [reflexivity | constructor].
  - intros H. destruct (IH H) as (before & after & -> & F).
    exists (x :: before), after. split; [reflexivity | now constructor].
Qed.

(** X15. The candidate ranked first is the earliest accumulated among
    those with the highest score: every record accumulated before it has
    a strictly lower score, and none after it has a higher one. *)
Theorem ranked_candidates_first
    (all_analyses rest : list CandidateAnalysis) (c : CandidateAnalysis) :
  ranked_candidates all_analyses = c :: rest ->
  exists before after,
    all_analyses = before ++ c :: after
    /\ Forall (fun x => (score x < score c)%Z) before
    /\ Forall (fun x => (score x <= score c)%Z) after.
Proof.
  intros H.
  assert (Top : forall x, In x all_analyses -> (score x <= score c)%Z).
  { intros x I.
    pose proof (sorted_reverse_descending _ score all_analyses) as D.
    pose proof (sorted_reverse_perm _ score all_analyses) as P.
    fold (ranked_candidates all_analyses) in D, P. rewrite H in D, P.
    apply (Permutation_in _ P) in I. inversion D as [|? ? _ F]; subst.
    destruct I as [<- | I]; [lia|]. rewrite Forall_forall in F. now apply F. }
  pose proof (sorted_reverse_stable _ score (score c) all_analyses) as S.
  fold (ranked_candidates all_analyses) in S. rewrite H in S.
  unfold with_key in S. simpl in S. rewrite Z.eqb_refl in S. symmetry in S.
  destruct (filter_head _ _ _ _ S) as (before & after & E & F).
  exists before, after. split; [exact E|]. subst all_analyses. split.
  - rewrite Forall_forall in *. intros x I.
    specialize (F x I). apply Z.eqb_neq in F.
    specialize (Top x ltac:(apply in_or_app; now left)). lia.
  - rewrite Forall_forall. intros x I. apply Top.
    apply in_or_app. right. now right.
Qed.

End RankingMore.

(** ** More on the constructor and the prompt *)

Section ConstructorMore.
Context {ext : Externals}.

(** X16. The constructor looks at the five fields of the model and at
    nothing else to decide: two sets of keyword arguments that agree on
    these five keys are both accepted, with the same record, or both
    rejected with a [ValidationError] for the same field errors, so that
    additional keys in the answer of the model, and the order of its
    keys, change neither the verdict nor the record.  (The text of the
    error may differ, since it quotes the input.) *)
Theorem CandidateAnalysis_new_reads_its_fields (first second : dict) :
  (forall f, In f field_names -> dict_get first f = dict_get second f) ->
  field_problems first = field_problems second
  /\ match CandidateAnalysis_new first, CandidateAnalysis_new second with
     | Ok c1, Ok c2 => c1 = c2
     | Raise e1, Raise e2 =>
         exc_type e1 = ValidationError /\ exc_type e2 = ValidationError
     | _, _ => False
     end.
Proof.
  intros H.
  assert (Vn : validate_str first (lit "candidate_name")
               = validate_str second (lit "candidate_name"))
    by (unfold validate_str; rewrite (H (lit "candidate_name")); simpl; auto).
  assert (Vz : validate_score first = validate_score second)
    by (unfold validate_score; rewrite (H (lit "score")); simpl; auto).
  assert (Vs : validate_str first (lit "summary") = validate_str second (lit "summary"))
    by (unfold validate_str; rewrite (H (lit "summary")); simpl; auto).
  assert (Vr : validate_str first (lit "reasoning") = validate_str second (lit "reasoning"))
    by (unfold validate_str; rewrite (H (lit "reasoning")); simpl; auto 6).
  assert (Vb : validate_bool first (lit "is_recommended")
               = validate_bool second (lit "is_recommended"))
    by (unfold validate_bool; rewrite (H (lit "is_recommended")); simpl; auto 7).
  split.
  - unfold field_problems. now rewrite Vn, Vz, Vs, Vr, Vb.
  - unfold CandidateAnalysis_new. rewrite Vn, Vz, Vs, Vr, Vb.
    destruct (validate_str second (lit "candidate_name")),
      (validate_score second), (validate_str second (lit "summary")),
      (validate_str second (lit "reasoning")),
      (validate_bool second (lit "is_recommended")); simpl; auto.
Qed.

End ConstructorMore.

Section PromptMore.

(** X17. For a given job description the prompt determines the
    resume, and for a given resume it determines the job description:
    when two prompts are equal, the job descriptions are equal exactly
    when the resumes are. *)
Theorem PROMPT_TEMPLATE_format_separately_injective
    (job1 job2 resume1 resume2 : pystr) :
  PROMPT_TEMPLATE_format job1 resume1 = PROMPT_TEMPLATE_format job2 resume2 ->
  (job1 = job2 <-> resume1 = resume2).
Proof.
  unfold PROMPT_TEMPLATE_format. intros H. apply app_inv_head in H. split.
  - intros ->. apply app_inv_head, app_inv_head in H. now apply app_inv_tail in H.
  - intros ->. rewrite !app_assoc in H. apply app_inv_tail in H.
    now apply app_inv_tail, app_inv_tail in H.
Qed.

(** X18. The two inputs are inserted as they are, without escaping: a
    job description that itself holds the text the template puts between
    its two fields gives the very prompt of a shorter job description
    with a longer resume.  The prompt does not determine the pair. *)
Theorem PROMPT_TEMPLATE_format_does_not_escape (a b c : pystr) :
  PROMPT_TEMPLATE_format (a ++ PROMPT_TEMPLATE_middle ++ b) c
  = PROMPT_TEMPLATE_format a (b ++ PROMPT_TEMPLATE_middle ++ c)
  /\ (a ++ PROMPT_TEMPLATE_middle ++ b <> a).
Proof.
  split.
  - unfold PROMPT_TEMPLATE_format. now rewrite <- !app_assoc.
  - intros H. apply (f_equal (@List.length _)) in H.
    rewrite !length_app in H. simpl in H. lia.
Qed.

End PromptMore.

(** ** A fenced answer *)

Section Fenced.

Lemma rstrip_keeps (s : pystr) (c : codepoint) :
  isspace c = false -> rstrip (s ++ [c]) = s ++ [c].
Proof.
  intros H. unfold rstrip. rewrite rev_app_distr. simpl. rewrite H.
  simpl. now rewrite rev_involutive.
Qed.

Lemma replace_scan_passes (o : codepoint) (old new before s : pystr) :
  Forall (fun c => c <> o) before ->
  replace_scan (o :: old) new 0 (before ++ s)
  = before ++ replace_scan (o :: old) new 0 s.
Proof.
  induction 1 as [|c before N _ IH]; [reflexivity|].
  cbn [app replace_scan startswith].
  apply N.eqb_neq in N. rewrite N. cbn [andb]. now rewrite IH.
Qed.

Lemma strip_between_back_quotes (s : pystr) :
  strip (96%N :: s ++ [96%N]) = 96%N :: s ++ [96%N].
Proof.
  unfold strip. cbn [lstrip]. change (isspace 96%N) with false. cbv iota.
  exact (rstrip_keeps (96%N :: s) 96%N eq_refl).
Qed.

Lemma strip_fenced (opener body : pystr) :
  strip ((96%N :: opener) ++ body ++ lit "```") = (96%N :: opener) ++ body ++ lit "```".
Proof.
  replace ((96%N :: opener) ++ body ++ lit "```")
    with (96%N :: (opener ++ body ++ lit "``") ++ [96%N])
    by (simpl; rewrite <- !app_assoc; reflexivity).
  apply strip_between_back_quotes.
Qed.

(** X19. An answer wrapped in a code fence whose body holds no back
    quote is unwrapped exactly: with the opener [```json] the text handed
    to the decoder is the body, and with the bare opener followed by a
    line break it is the line break and the body. *)
Theorem response_text_unwraps_a_fenced_answer (body : pystr) :
  Forall (fun c : codepoint => c <> 96%N) body ->
  response_text (lit "```json" ++ body ++ lit "```") = body
  /\ response_text (lit "```" ++ nl ++ body ++ lit "```") = nl ++ body.
Proof.
  intros Q.
  assert (Q' : Forall (fun c : codepoint => c <> 96%N) (nl ++ body))
    by (constructor; [discriminate | exact Q]).
  assert (J : forall b : pystr, Forall (fun c : codepoint => c <> 96%N) b ->
              replace_scan (lit "```json") [] 0 (b ++ lit "```") = b ++ lit "```").
  { intros b H. change (lit "```json") with (96%N :: lit "``json").
    now rewrite (replace_scan_passes _ _ _ _ _ H). }
  assert (F : forall b : pystr, Forall (fun c : codepoint => c <> 96%N) b ->
              replace_scan (lit "```") [] 0 (b ++ lit "```") = b).
  { intros b H. change (lit "```") with (96%N :: lit "``") at 1.
    rewrite (replace_scan_passes _ _ _ _ _ H). apply app_nil_r. }
  unfold response_text. split.
  - change (lit "```json" ++ body ++ lit "```")
      with ((96%N :: lit "``json") ++ body ++ lit "```").
    rewrite (strip_fenced (lit "``json") body).
    change (replace ((96%N :: lit "``json") ++ body ++ lit "```") (lit "```json") [])
      with (replace_scan (lit "```json") [] 0 (body ++ lit "```")).
    rewrite (J body Q). exact (F body Q).
  - change (lit "```" ++ nl ++ body ++ lit "```")
      with ((96%N :: lit "``") ++ (nl ++ body) ++ lit "```").
    rewrite (strip_fenced (lit "``") (nl ++ body)).
    change (replace ((96%N :: lit "``") ++ (nl ++ body) ++ lit "```") (lit "```json") [])
      with (lit "```" ++ replace_scan (lit "```json") [] 0 ((nl ++ body) ++ lit "```")).
    rewrite (J _ Q').
    change (replace (lit "```" ++ (nl ++ body) ++ lit "```") (lit "```") [])
      with (replace_scan (lit "```") [] 0 ((nl ++ body) ++ lit "```")).
    exact (F _ Q').
Qed.

End Fenced.

(** ** The run as a whole *)

Section WholeRun.
Context {ext : Externals}.

Lemma render_all_no_model_call (candidates : list CandidateAnalysis) (l : log) :
  model_calls (snd (render_all candidates l)) = model_calls l.
Proof.
  revert l. induction candidates as [|c rest IH]; intros l; simpl; [reflexivity|].
  unfold bind at 1. unfold render_candidate, bind, emit.
  destruct (is_recommended c); simpl; rewrite IH, !model_calls_app; simpl;
    now rewrite !app_nil_r.
Qed.

(** X20. In a run that completes, exactly one expander is rendered
    for each request that was sent to the model: every resume that was
    analysed appears once in the results, the failed analyses included,
    and nothing else appears. *)
Theorem on_analyze_one_expander_per_call
    (jd_input : pystr) (resume_files : list UploadedFile) (l l' : log) :
  on_analyze jd_input resume_files l = (Ok tt, l') ->
  List.length (rendered_titles l') + List.length (model_calls l)
  = List.length (rendered_titles l) + List.length (model_calls l').
Proof.
  unfold on_analyze, emit.
  assert (E : forall msg, List.length (rendered_titles (l ++ [st_error msg]))
                          + List.length (model_calls l)
                          = List.length (rendered_titles l)
                            + List.length (model_calls (l ++ [st_error msg]))).
  { intros msg. rewrite rendered_titles_app, model_calls_app. simpl.
    now rewrite !app_nil_r. }
  destruct (negb (truthy (strip jd_input))); [intros H; injection H as <-; apply E|].
  destruct (negb (truthy resume_files)); [intros H; injection H as <-; apply E|].
  unfold bind. intros H.
  destruct (run_batch jd_input resume_files l) as [[a|e] l1] eqn:B; [|discriminate].
  assert (C : List.length (model_calls l1)
              = List.length (model_calls l) + List.length a
              /\ rendered_titles l1 = rendered_titles l).
  { unfold run_batch, bind, emit, ret in B.
    destruct (analyze_loop _ _ _ _ _ _) as [[a'|e] l2] eqn:L; [|discriminate].
    injection B as <- <-.
    destruct (analyze_loop_trace _ _ _ _ _ _ _ _ L)
      as (evs & new & -> & -> & K & _ & _ & _ & R & _).
    rewrite !model_calls_app, !rendered_titles_app, !length_app, K, R. simpl.
    rewrite !app_nil_r. split; [lia | reflexivity]. }
  destruct C as [C R].
  assert (T : snd (render_results a l1) = l') by (now rewrite H).
  subst l'. unfold render_results. destruct a as [|c rest]; cbn [truthy].
  - unfold ret. cbn [snd]. rewrite R. cbn [List.length] in C. lia.
  - unfold bind, emit.
    destruct (render_all_titles (ranked_candidates (c :: rest))
                (l1 ++ [st_subheader (lit "Analysis Results")])) as [_ I].
    rewrite I, render_all_no_model_call, rendered_titles_app, model_calls_app.
    cbn [rendered_titles flat_map model_calls filter is_generate_content].
    rewrite !app_nil_r, length_app, length_map, R.
    unfold ranked_candidates.
    rewrite <- (Permutation_length (sorted_reverse_perm _ score (c :: rest))).
    lia.
Qed.

Lemma descending_after (before after : list CandidateAnalysis) (c : CandidateAnalysis) :
  descending score (before ++ c :: after) ->
  Forall (fun x => (score x <= score c)%Z) after.
Proof.
  unfold descending. induction before as [|b before IH]; simpl; intros H.
  - now inversion H.
  - inversion H; subst. now apply IH.
Qed.

(** X21. Failed analyses sink to the bottom of the ranking: in the
    ranking of a batch, every record that follows a record of score 0,
    such as a fallback record, has score 0 as well. *)
Theorem ranked_candidates_zero_scores_last
    (jd_input : pystr) (resume_files : list UploadedFile) (l l' : log)
    (all_analyses before after : list CandidateAnalysis) (c : CandidateAnalysis) :
  run_batch jd_input resume_files l = (Ok all_analyses, l') ->
  ranked_candidates all_analyses = before ++ c :: after ->
  score c = 0%Z ->
  Forall (fun x => score x = 0%Z) after.
Proof.
  intros B R Z0.
  assert (F : Forall score_in_range all_analyses).
  { unfold run_batch, bind, emit, ret in B.
    destruct (analyze_loop _ _ _ _ _ _) as [[a|e] l1] eqn:L; [|discriminate].
    injection B as <- _.
    exact (analyze_loop_in_range _ _ _ _ _ _ _ _ L (Forall_nil _)). }
  pose proof (sorted_reverse_descending _ score all_analyses) as D.
  pose proof (sorted_reverse_perm _ score all_analyses) as P.
  fold (ranked_candidates all_analyses) in D, P. rewrite R in D, P.
  apply descending_after in D.
  rewrite Forall_forall in *. intros x I.
  specialize (D x I).
  assert (I' : In x all_analyses).
  { apply (Permutation_in _ (Permutation_sym P)). apply in_or_app. right. now right. }
  specialize (F x I'). unfold score_in_range in F. lia.
Qed.

End WholeRun.

(** ** The further properties on sample runs *)

(** A PDF that cannot be opened; a DOCX whose second paragraph cannot
    be read, the first being dropped with it. *)
Lemma parse_resume_extraction_error_witness :
  parse_resume (ext := corrupt_documents) [] (lit "cv.pdf") []
  = (Ok [], [fitz_opening [];
             st_error (lit "Error parsing cv.pdf : cannot open broken document")])
  /\ parse_resume (ext := corrupt_documents) [] (lit "cv.docx") []
     = (Ok [], [docx_opening []; st_error (lit "Error parsing cv.docx : 'w:t'")]).
Proof.
  split.
  - apply (proj1 (parse_resume_extraction_error (ext := corrupt_documents)
                    [] (lit "cv") (mk_exc ValueError (lit "cannot open broken document"))
                    [] eq_refl)).
    left. reflexivity.
  - apply (proj2 (parse_resume_extraction_error (ext := corrupt_documents)
                    [] (lit "cv") (mk_exc KeyError (lit "'w:t'")) [] eq_refl)).
    right. exists [lit "Jane Doe"], [Ok (lit "Python")]. reflexivity.
Defined.

(** The service is down. *)
Lemma analyze_unexpected_error_fallback_witness :
  analyze_with_gemini (ext := failing_model OtherException "503 Service Unavailable")
    job resume []
  = (Ok {| candidate_name := lit "Unknown/Error"; score := 0;
           summary := lit "Analysis failed !";
           reasoning := lit "An unexpected error occurred : 503 Service Unavailable";
           is_recommended := false |},
     [genai_generate_content prompt;
      st_error (lit "An unexpected error occurred during analysis : 503 Service Unavailable")]).
Proof.
  apply (analyze_unexpected_error_fallback
           (ext := failing_model OtherException "503 Service Unavailable")
           job resume [] (mk_exc OtherException (lit "503 Service Unavailable"))).
  - left. reflexivity.
  - reflexivity.
  - reflexivity.
Defined.

(** The model answers with a list. *)
Lemma analyze_non_object_answer_witness :
  analyze_with_gemini (ext := answering a_list) job resume []
  = (Ok {| candidate_name := lit "Unknown/Error"; score := 0;
           summary := lit "Analysis failed !";
           reasoning := lit "An unexpected error occurred : 'list' object has no attribute 'get'";
           is_recommended := false |},
     [genai_generate_content prompt;
      st_error (lit "An unexpected error occurred during analysis : 'list' object has no attribute 'get'")]).
Proof.
  apply (analyze_non_object_answer (ext := answering a_list)
           job resume [] {| text := Ok a_list |} a_list (VList [VInt 1; VInt 2])).
  - reflexivity.
  - reflexivity.
  - vm_compute. reflexivity.
  - discriminate.
Defined.

(** The call raises a [TypeError]. *)
Lemma analyze_format_error_from_the_call_witness :
  exists e',
    analyze_with_gemini (ext := failing_model TypeError "bad argument") job resume []
    = (Raise e',
       [genai_generate_content prompt;
        st_error (lit "Error parsing Gemini's JSON response : bad argument"
                  ++ lit ", the model might have returned an invalid format !")])
    /\ exc_type e' = UnboundLocalError.
Proof.
  apply (analyze_format_error_from_the_call (ext := failing_model TypeError "bad argument")
           job resume [] (mk_exc TypeError (lit "bad argument"))).
  - reflexivity.
  - reflexivity.
Defined.


(** Four uploads, one of them skipped: three calls, three records. *)
Lemma run_batch_one_record_per_call_witness :
  List.length (model_calls (snd (run_batch (ext := three_candidates) job mixed_uploads [])))
  = 0 + List.length [candidate "Bob" 40; candidate "Alice" 90; candidate "Carol" 90]
  /\ (List.length [candidate "Bob" 40; candidate "Alice" 90; candidate "Carol" 90]
      <= List.length mixed_uploads)%nat.
Proof.
  apply (run_batch_one_record_per_call (ext := three_candidates) job mixed_uploads
           [candidate "Bob" 40; candidate "Alice" 90; candidate "Carol" 90] []
           (snd (run_batch (ext := three_candidates) job mixed_uploads []))).
  vm_compute. reflexivity.
Defined.


(** With the service down the run still completes. *)
Lemma on_analyze_completes_witness :
  exists l',
    on_analyze (ext := failing_model OtherException "503 Service Unavailable")
      job mixed_uploads [] = (Ok tt, l').
Proof.
  apply (on_analyze_completes (ext := failing_model OtherException "503 Service Unavailable")).
  repeat split; intros; simpl in *; try discriminate.
  - match goal with H : Raise _ = Raise _ |- _ => injection H as <- end. reflexivity.
  - match goal with H : Raise _ = Raise _ |- _ => injection H as <- end. reflexivity.
  - match goal with H : Json.loads ?lim ?s = Raise ?e |- _ =>
      destruct (loads_total lim s) as [[v V] | (e' & E & T)]; [congruence|];
      assert (e = e') by congruence; subst e'
    end.
    unfold is_Exception. destruct T as [T|[T|T]]; now rewrite T.
  - match goal with H : Ok _ = Ok _ |- _ => injection H as <- end. discriminate.
  - match goal with H : Ok _ = Ok _ |- _ => injection H as <- end. discriminate.
Defined.

(** Two files whose extensions are not in lower case. *)
Lemma on_analyze_nothing_recognized_witness :
  exists l',
    on_analyze (ext := three_candidates) job capital_uploads [] = (Ok tt, l')
    /\ model_calls l' = []
    /\ extractions l' = []
    /\ errors_shown l' = []
    /\ rendered_titles l' = []
    /\ subheaders l' = [].
Proof.
  apply (on_analyze_nothing_recognized (ext := three_candidates) job capital_uploads []).
  - reflexivity.
  - discriminate.
  - repeat constructor.
Defined.

(** Spaces, an em space, a tab and a line break. *)
Lemma on_analyze_blank_job_description_first_witness :
  on_analyze (ext := three_candidates) blank uploads []
  = (Ok tt, [st_error (lit "Please paste a job description.")]).
Proof.
  apply (on_analyze_blank_job_description_first (ext := three_candidates) blank uploads []).
  reflexivity.
Defined.

(** Bob moved behind Alice: the same ranking. *)
Lemma ranked_candidates_order_within_scores_witness :
  ranked_candidates [candidate "Bob" 40; candidate "Alice" 90; candidate "Carol" 90]
  = ranked_candidates [candidate "Alice" 90; candidate "Bob" 40; candidate "Carol" 90].
Proof.
  apply ranked_candidates_order_within_scores.
  intros k. unfold with_key. cbn [filter score candidate].
  destruct (Z.eqb_spec 40 k), (Z.eqb_spec 90 k); try reflexivity; lia.
Defined.

Lemma ranked_candidates_keeps_a_ranking_witness :
  ranked_candidates [candidate "Alice" 90; candidate "Carol" 90; candidate "Bob" 40]
  = [candidate "Alice" 90; candidate "Carol" 90; candidate "Bob" 40].
Proof.
  apply ranked_candidates_keeps_a_ranking.
  repeat constructor; simpl; lia.
Defined.

Lemma ranked_candidates_first_witness :
  exists before after,
    [candidate "Bob" 40; candidate "Alice" 90; candidate "Carol" 90]
    = before ++ candidate "Alice" 90 :: after
    /\ Forall (fun x => (score x < score (candidate "Alice" 90))%Z) before
    /\ Forall (fun x => (score x <= score (candidate "Alice" 90))%Z) after.
Proof.
  apply (ranked_candidates_first
           [candidate "Bob" 40; candidate "Alice" 90; candidate "Carol" 90]
           [candidate "Carol" 90; candidate "Bob" 40]).
  reflexivity.
Defined.

(** An additional key and another order of the keys. *)
Lemma CandidateAnalysis_new_reads_its_fields_witness :
  field_problems (ext := answering not_json) with_extra_key
  = field_problems (ext := answering not_json) in_schema_order
  /\ match CandidateAnalysis_new (ext := answering not_json) with_extra_key,
           CandidateAnalysis_new (ext := answering not_json) in_schema_order with
     | Ok c1, Ok c2 => c1 = c2
     | Raise e1, Raise e2 =>
         exc_type e1 = ValidationError /\ exc_type e2 = ValidationError
     | _, _ => False
     end.
Proof.
  apply (CandidateAnalysis_new_reads_its_fields (ext := answering not_json)).
  intros f H. simpl in H.
  destruct H as [<- | [<- | [<- | [<- | [<- | []]]]]]; reflexivity.
Defined.

(** Two different pairs with one prompt: neither the job descriptions
    nor the resumes are equal. *)
Lemma PROMPT_TEMPLATE_format_separately_injective_witness :
  lit "A" ++ PROMPT_TEMPLATE_middle ++ lit "B" = lit "A"
  <-> lit "C" = lit "B" ++ PROMPT_TEMPLATE_middle ++ lit "C".
Proof.
  apply PROMPT_TEMPLATE_format_separately_injective.
  vm_compute. reflexivity.
Defined.

Lemma response_text_unwraps_a_fenced_answer_witness :
  response_text (lit "```json" ++ small_body ++ lit "```") = small_body
  /\ response_text (lit "```" ++ nl ++ small_body ++ lit "```") = nl ++ small_body.
Proof.
  apply response_text_unwraps_a_fenced_answer.
  repeat (constructor; [discriminate|]). constructor.
Defined.

(** The run on the four uploads: three expanders for three calls. *)
Lemma on_analyze_one_expander_per_call_witness :
  List.length (rendered_titles (snd (on_analyze (ext := three_candidates) job mixed_uploads [])))
  + 0
  = 0 + List.length (model_calls (snd (on_analyze (ext := three_candidates) job mixed_uploads []))).
Proof.
  apply (on_analyze_one_expander_per_call (ext := three_candidates) job mixed_uploads []
           (snd (on_analyze (ext := three_candidates) job mixed_uploads []))).
  vm_compute. reflexivity.
Defined.

(** With the service down the three records are fallbacks of score 0. *)
Lemma ranked_candidates_zero_scores_last_witness :
  Forall (fun x => score x = 0%Z) [fallback_503; fallback_503].
Proof.
  apply (ranked_candidates_zero_scores_last
           (ext := failing_model OtherException "503 Service Unavailable")
           job uploads []
           (snd (run_batch (ext := failing_model OtherException "503 Service Unavailable")
                   job uploads []))
           [fallback_503; fallback_503; fallback_503] []
           [fallback_503; fallback_503] fallback_503).
  - vm_compute. reflexivity.
  - reflexivity.
  - reflexivity.
Defined.
